(** * WeaveCanvas: gesture-driven mesh deformation and reveal mask

    A shallow embedding of [src/components/WeaveCanvas.tsx] (the LINES
    topology variant, drawn with [gl.drawElements(gl.LINES, ...)]) and of
    [src/unnamed/part_000] (the SCATTER topology variant, drawn with
    [gl.drawArrays(gl.POINTS, ...)]).

    Numbers.  JavaScript numbers and GLSL floats are modelled as the real
    numbers [R]: rounding of IEEE arithmetic and the 8-bit quantisation of
    canvas pixels are not part of the model.  Values that the code only uses
    as integers (gesture codes, pixel dimensions, grid sizes, vertex ids) are
    [Z] or [nat]. *)

From Stdlib Require Import Reals Lra Lia ZArith List Bool.
Import ListNotations.

Open Scope R_scope.

(* ================================================================== *)
(** * Comparisons used as conditions *)

Definition Rltb (a b : R) : bool := if Rlt_dec a b then true else false.

(* ================================================================== *)
(** * The JavaScript [Math] functions the component calls *)

Module Math.

(** [Math.hypot(a, b)] *)
Definition hypot (a b : R) : R := sqrt (a * a + b * b).

(** [Math.ceil(x)]: the least integer not below [x].  [up r] is the
    integer with [r < up r <= r + 1], so [- up (- x)] is the floor of
    [x - 1] from above, and [1 - up (- x)] the ceiling of [x]. *)
Definition ceil (x : R) : Z := (1 - up (- x))%Z.

(** [Math.max(a, b)] *)
Definition max (a b : R) : R := Rmax a b.

End Math.

(* ================================================================== *)
(** * Vectors *)

(** A JS object [{x, y}] and a GLSL [vec2]. *)
Record Vec2 := vec2 { vx : R; vy : R }.

(** A GLSL [vec3] (positions [x y z], colours [r g b]). *)
Record Vec3 := vec3 { x3 : R; y3 : R; z3 : R }.

(** A GLSL [vec4]; for a colour the fields are [r g b a]. *)
Record Vec4 := vec4 { x4 : R; y4 : R; z4 : R; w4 : R }.

Module GLSL.

Definition clamp (v lo hi : R) : R := Rmin (Rmax v lo) hi.

(** [mix(a, b, t) = a * (1 - t) + b * t] *)
Definition mix (a b t : R) : R := a * (1 - t) + b * t.

Definition mix2 (a b : Vec2) (t : R) : Vec2 :=
  vec2 (mix (vx a) (vx b) t) (mix (vy a) (vy b) t).

Definition mix3 (a b : Vec3) (t : R) : Vec3 :=
  vec3 (mix (x3 a) (x3 b) t) (mix (y3 a) (y3 b) t) (mix (z3 a) (z3 b) t).

(** [smoothstep(edge0, edge1, x)], by the formula of the GLSL reference:
    [t = clamp((x - edge0) / (edge1 - edge0), 0, 1); t * t * (3 - 2 * t)].
    The shaders call it with [edge0 > edge1]. *)
Definition smoothstep (edge0 edge1 v : R) : R :=
  let t := clamp ((v - edge0) / (edge1 - edge0)) 0 1 in
  t * t * (3 - 2 * t).

(** [mod(x, y) = x - y * floor(x / y)] *)
Definition mod_ (a b : R) : R := a - b * IZR (Int_part (a / b)).

Definition dot3 (a b : Vec3) : R := x3 a * x3 b + y3 a * y3 b + z3 a * z3 b.

Definition length3 (a : Vec3) : R := sqrt (dot3 a a).

Definition distance2 (a b : Vec2) : R :=
  sqrt ((vx a - vx b) * (vx a - vx b) + (vy a - vy b) * (vy a - vy b)).

Definition add2 (a b : Vec2) : Vec2 := vec2 (vx a + vx b) (vy a + vy b).
Definition sub2 (a b : Vec2) : Vec2 := vec2 (vx a - vx b) (vy a - vy b).
Definition scale2 (a : Vec2) (k : R) : Vec2 := vec2 (vx a * k) (vy a * k).

Definition add3 (a b : Vec3) : Vec3 := vec3 (x3 a + x3 b) (y3 a + y3 b) (z3 a + z3 b).
Definition scale3 (a : Vec3) (k : R) : Vec3 := vec3 (x3 a * k) (y3 a * k) (z3 a * k).

(** [vec3(s)] *)
Definition splat3 (s : R) : Vec3 := vec3 s s s.

(** [c.rgb] *)
Definition rgb (c : Vec4) : Vec3 := vec3 (x4 c) (y4 c) (z4 c).

End GLSL.

(* ================================================================== *)
(** * Hand state and the gesture classifier ([predict]) *)

(** One landmark of the pose service ([NormalizedLandmark]). *)
Record Landmark := landmark { lx : R; ly : R; lz : R }.

(** The refs the detection loop writes: [handPos], [prevHandPos],
    [handVel] and [gesture] ([useRef(0)]; the code stores 0, 1, 2 or 4). *)
Record HandState := mkHand {
  handPos : Vec2;
  prevHandPos : Vec2;
  handVel : Vec2;
  gesture : Z
}.

(** The initial values of the four refs. *)
Definition initialHand : HandState :=
  mkHand (vec2 0.5 0.5) (vec2 0.5 0.5) (vec2 0 0) 0.

(** The gesture codes of the spec and the number the code stores for each. *)
Inductive GestureCode := NONE | FIST | OPEN | PINCH.

Definition gestureCode (g : Z) : option GestureCode :=
  if (g =? 0)%Z then Some NONE
  else if (g =? 1)%Z then Some FIST
  else if (g =? 2)%Z then Some OPEN
  else if (g =? 4)%Z then Some PINCH
  else None.

(** Reading [lm[i]] and then one of its fields: an index past the end of the
    array gives [undefined], and the field access throws (modelled as
    [None]; the detection loop is then not rescheduled). *)
Definition at_ (lm : list Landmark) (i : nat) : option Landmark := nth_error lm i.

Definition bind {A B : Type} (o : option A) (k : A -> option B) : option B :=
  match o with Some a => k a | None => None end.

Notation "x <- e ;; k" := (bind e (fun x => k))
  (at level 61, e at next level, right associativity).

(** The part of [predict] that both variants share: the update of velocity,
    previous raw target and smoothed position from landmark 9. *)
Definition track (s : HandState) (l9 : Landmark) (g : Z) : HandState :=
  let targetX := 1 - lx l9 in
  let targetY := ly l9 in
  let dx := targetX - vx (prevHandPos s) in
  let dy := targetY - vy (prevHandPos s) in
  let vel := vec2 (vx (handVel s) * 0.8 + dx * 0.2) (vy (handVel s) * 0.8 + dy * 0.2) in
  let prev := vec2 targetX targetY in
  let pos := vec2 (vx (handPos s) + (targetX - vx (handPos s)) * 0.3)
                  (vy (handPos s) + (targetY - vy (handPos s)) * 0.3) in
  mkHand pos prev vel g.

(** The [else] branch of [predict], the same in both variants: no hand. *)
Definition lost (s : HandState) : HandState :=
  mkHand (handPos s) (prevHandPos s)
         (vec2 (vx (handVel s) * 0.9) (vy (handVel s) * 0.9)) 0.

(** [pinchDist] of both variants. *)
Definition pinchDist (thumbTip indexTip : Landmark) : R :=
  Math.hypot (lx thumbTip - lx indexTip) (ly thumbTip - ly indexTip).

(** [Math.hypot(p.x - wrist.x, p.y - wrist.y)] *)
Definition distToWrist (p wrist : Landmark) : R :=
  Math.hypot (lx p - lx wrist) (ly p - ly wrist).

(* ================================================================== *)
(** * The mesh builder (grid generation in [initWebGL]) *)

(** The values [0, 1, ..., n-1] of a loop counter. *)
Definition range (n : Z) : list Z := map Z.of_nat (seq 0 (Z.to_nat n)).

(** The buffers [initWebGL] fills.  [lineIndices] is built by the LINES
    variant only; the SCATTER variant builds the same [uvData] and
    [indexData] and draws them as points. *)
Record Mesh := mkMesh {
  rows : Z;
  cols : Z;
  uvData : list R;
  indexData : list R;
  lineIndices : list Z
}.

(** The grid generation of [initWebGL(count)] on a canvas of the given
    [width] and [height] attributes (the same in both variants, up to
    [lineIndices]).  The counter [ptr] is incremented once per inner
    iteration, so in iteration [(i, j)] it is [i * rows + j]; the typed
    arrays have exactly the length the loops fill.  A canvas of height 0, or
    [rows = 0], makes the JavaScript quotients infinite or NaN; the model is
    meant for positive sizes and [rows >= 1]. *)
Definition initWebGL (count : Z) (canvasWidth canvasHeight : Z) : Mesh :=
  let aspect := IZR canvasWidth / IZR canvasHeight in
  let rows := Math.ceil (sqrt (IZR count / aspect)) in
  let cols := Math.ceil (IZR count / IZR rows) in
  let ptr (i j : Z) : Z := (i * rows + j)%Z in
  mkMesh rows cols
    (flat_map (fun i =>
       flat_map (fun j => [IZR i / (IZR cols - 1); IZR j / (IZR rows - 1)])
                (range rows)) (range cols))
    (flat_map (fun i => map (fun j => IZR (ptr i j)) (range rows)) (range cols))
    (flat_map (fun i =>
       flat_map (fun j =>
                   (if (i <? cols - 1)%Z then [ptr i j; (ptr i j + rows)%Z] else [])
                   ++ (if (j <? rows - 1)%Z then [ptr i j; (ptr i j + 1)%Z] else []))
                (range rows)) (range cols)).

(** The attribute [a_uv] of vertex [ptr], as [vertexAttribPointer(aUv, 2,
    gl.FLOAT, false, 0, 0)] reads it from [uvData]. *)
Definition uvAt (m : Mesh) (ptr : nat) : Vec2 :=
  vec2 (nth (2 * ptr) (uvData m) 0) (nth (2 * ptr + 1) (uvData m) 0).

(* ================================================================== *)
(** * The vertex stage: uniforms and outputs *)

(** The uniforms of [VERTEX_SHADER].  A [sampler2D] is the function that
    [texture(sampler, coord)] computes.  [u_pointSize] exists in the SCATTER
    program only and is passed to its [main] separately. *)
Record Uniforms := mkUniforms {
  u_time : R;
  u_resolution : Vec2;
  u_hand : Vec2;
  u_handVel : Vec2;
  u_gesture : R;
  u_texture : Vec2 -> Vec4;
  u_mask : Vec2 -> Vec4;
  u_aspect : R;
  u_brightness : R
}.

(** What [main] writes: [gl_Position] and the three varyings. *)
Record VsOut := mkVsOut {
  gl_Position : Vec4;
  v_color : Vec3;
  v_depth : R;
  v_isQuantum : R
}.

(** Lines 1 to 3 of both [main]s up to the interaction logic: the texture
    coordinate, the base colour and the base position. *)
Definition texCoord (a_uv : Vec2) : Vec2 := vec2 (vx a_uv) (1 - vy a_uv).

Definition basePos (U : Uniforms) (a_uv : Vec2) : Vec3 :=
  vec3 ((vx a_uv - 0.5) * 2 * u_aspect U) ((vy a_uv - 0.5) * 2) 0.

Definition handPos2D (U : Uniforms) : Vec2 :=
  vec2 (vx (u_hand U) * u_aspect U) (1 - vy (u_hand U)).

(** [dist]: the distance in the projected plane between vertex and hand. *)
Definition dist (U : Uniforms) (a_uv : Vec2) : R :=
  let pos := basePos U a_uv in
  GLSL.distance2 (vec2 (x3 pos) (y3 pos)) (handPos2D U).

(** [baseColor] as it stands before the interaction logic; [boost] is the
    factor on [texColor.rgb], 1.5 in LINES and 1.2 in SCATTER. *)
Definition baseColor (boost : R) (U : Uniforms) (a_uv : Vec2) : Vec3 :=
  let texColor := u_texture U (texCoord a_uv) in
  let maskVal := x4 (u_mask U (texCoord a_uv)) in
  let gray := GLSL.dot3 (GLSL.rgb texColor) (vec3 0.299 0.587 0.114) in
  let bwColor := GLSL.splat3 (gray * 0.8) in
  let baseColor := GLSL.mix3 bwColor (GLSL.scale3 (GLSL.rgb texColor) boost) maskVal in
  if Rltb (GLSL.length3 (GLSL.rgb texColor)) 0.01 then GLSL.splat3 0.1 else baseColor.

(** [v_isQuantum] *)
Definition isQuantum (a_index : R) : R :=
  if Rltb (GLSL.mod_ a_index 29) 1 then 1 else 0.

(** * The two variants

    Each module holds the variant's classifier and its vertex stage.
    [predict] is one detection cycle, from the point where [detectForVideo]
    has returned [results]; its argument is [results.landmarks], the list of
    hands.  The two early returns before that point touch no state. *)

(** [src/components/WeaveCanvas.tsx] *)
Module Lines.

Definition isFist (wrist middleTip middleMcp ringTip ringMcp : Landmark) : bool :=
  let distMiddleTip := distToWrist middleTip wrist in
  let distMiddleBase := distToWrist middleMcp wrist in
  let distRingTip := distToWrist ringTip wrist in
  let distRingBase := distToWrist ringMcp wrist in
  Rltb distMiddleTip (distMiddleBase * 0.85) && Rltb distRingTip (distRingBase * 0.85).

Definition classify (lm : list Landmark) : option Z :=
  wrist <- at_ lm 0 ;;
  thumbTip <- at_ lm 4 ;;
  indexTip <- at_ lm 8 ;;
  middleTip <- at_ lm 12 ;;
  middleMcp <- at_ lm 9 ;;
  ringTip <- at_ lm 16 ;;
  ringMcp <- at_ lm 13 ;;
  Some (if isFist wrist middleTip middleMcp ringTip ringMcp then 1%Z
        else if Rltb (pinchDist thumbTip indexTip) 0.05 then 4%Z
        else 2%Z).

Definition predict (s : HandState) (landmarks : list (list Landmark)) : option HandState :=
  match landmarks with
  | lm :: _ =>
      l9 <- at_ lm 9 ;;
      g <- classify lm ;;
      Some (track s l9 g)
  | [] => Some (lost s)
  end.

(** [main] of [VERTEX_SHADER]. *)
Definition vertex_main (U : Uniforms) (a_uv : Vec2) (a_index : R) : VsOut :=
  let maskVal := x4 (u_mask U (texCoord a_uv)) in
  let baseColor := baseColor 1.5 U a_uv in
  let pos := basePos U a_uv in
  let handPos2D := handPos2D U in
  let dist := dist U a_uv in
  let '(pos, baseColor) :=
    (* A. open hand, gesture 2 *)
    if Rltb 1.5 (u_gesture U) && Rltb (u_gesture U) 2.5 && Rltb 0.1 maskVal then
      let radius := 0.65 in
      if Rltb dist radius then
        let influence := GLSL.smoothstep radius 0 dist in
        let xy := vec2 (x3 pos) (y3 pos) in
        let xy := GLSL.mix2 xy
                    (GLSL.add2 handPos2D (GLSL.scale2 (GLSL.sub2 xy handPos2D) 0.7))
                    (influence * 0.3) in
        let xy := GLSL.add2 xy (GLSL.scale2 (GLSL.scale2 (u_handVel U) influence) 12) in
        let z := z3 pos + sin (dist * 12 - u_time U * 6) * influence * 1.2 in
        (vec3 (vx xy) (vy xy) z,
         GLSL.add3 baseColor (GLSL.scale3 (vec3 0 0.4 0.6) influence))
      else (pos, baseColor)
    (* B. fist, gesture 1 *)
    else if Rltb 0.5 (u_gesture U) && Rltb (u_gesture U) 1.5 then
      if Rltb dist 0.25 then
        (vec3 (x3 pos) (y3 pos) (z3 pos - (0.25 - dist) * 0.6), baseColor)
      else (pos, baseColor)
    (* C. pinch, gesture 4 *)
    else if Rltb 3.5 (u_gesture U) then
      if Rltb dist 0.3 then
        let strength := (0.3 - dist) / 0.3 in
        let tension := sin (dist * 60 - u_time U * 12) * strength * 0.1 in
        let z := z3 pos + tension in
        let xy := GLSL.mix2 (vec2 (x3 pos) (y3 pos)) handPos2D (strength * 0.05) in
        (vec3 (vx xy) (vy xy) z,
         GLSL.add3 baseColor (GLSL.scale3 (vec3 0.3 0 0.3) strength))
      else (pos, baseColor)
    else (pos, baseColor) in
  mkVsOut (vec4 (x3 pos) (y3 pos) (z3 pos) 1) baseColor (z3 pos) (isQuantum a_index).

End Lines.

(** [src/unnamed/part_000] *)
Module Scatter.

Definition isFist (wrist middleTip middleMcp : Landmark) : bool :=
  let distTip := distToWrist middleTip wrist in
  let distBase := distToWrist middleMcp wrist in
  Rltb distTip (distBase * 0.8).

Definition classify (lm : list Landmark) : option Z :=
  wrist <- at_ lm 0 ;;
  thumbTip <- at_ lm 4 ;;
  indexTip <- at_ lm 8 ;;
  middleTip <- at_ lm 12 ;;
  middleMcp <- at_ lm 9 ;;
  Some (if Rltb (pinchDist thumbTip indexTip) 0.05 then 4%Z
        else if isFist wrist middleTip middleMcp then 1%Z
        else 2%Z).

Definition predict (s : HandState) (landmarks : list (list Landmark)) : option HandState :=
  match landmarks with
  | lm :: _ =>
      l9 <- at_ lm 9 ;;
      g <- classify lm ;;
      Some (track s l9 g)
  | [] => Some (lost s)
  end.

(** [main] of [VERTEX_SHADER]; the second component is [gl_PointSize]. *)
Definition vertex_main (U : Uniforms) (u_pointSize : R) (a_uv : Vec2) (a_index : R)
  : VsOut * R :=
  let maskVal := x4 (u_mask U (texCoord a_uv)) in
  let baseColor := baseColor 1.2 U a_uv in
  let pos := basePos U a_uv in
  let handPos2D := handPos2D U in
  let dist := dist U a_uv in
  let '(pos, baseColor) :=
    (* A. pinch, gesture 4 *)
    if Rltb 3.5 (u_gesture U) && Rltb 0.1 maskVal then
      let radius := 0.5 in
      if Rltb dist radius then
        let influence := GLSL.smoothstep radius 0 dist in
        let xy := vec2 (x3 pos) (y3 pos) in
        let xy := GLSL.mix2 xy
                    (GLSL.add2 handPos2D (GLSL.scale2 (GLSL.sub2 xy handPos2D) 0.6))
                    (influence * 0.4) in
        let xy := GLSL.add2 xy (GLSL.scale2 (GLSL.scale2 (u_handVel U) influence) 3) in
        let weaveFreq := 150 in
        let weaveAmp := 0.04 * influence in
        let weave := sin (vx a_uv * weaveFreq) * cos (vy a_uv * weaveFreq) in
        let z := z3 pos + weave * 2 in
        (vec3 (vx xy) (vy xy) z,
         GLSL.add3 baseColor (GLSL.scale3 (vec3 0.2 0.1 0.3) influence))
      else (pos, baseColor)
    (* B. fist, gesture 1 *)
    else if Rltb 0.5 (u_gesture U) && Rltb (u_gesture U) 1.5 then
      if Rltb dist 0.2 then
        (vec3 (x3 pos) (y3 pos) (z3 pos - (0.2 - dist) * 0.5), baseColor)
      else (pos, baseColor)
    (* C. open hand, gesture 2 *)
    else if Rltb 1.5 (u_gesture U) && Rltb (u_gesture U) 2.5 then
      if Rltb dist 0.4 then
        let strength := (0.4 - dist) / 0.4 in
        let ripple := sin (dist * 40 - u_time U * 8) * strength * 0.15 in
        (vec3 (x3 pos) (y3 pos) (z3 pos + ripple), baseColor)
      else (pos, baseColor)
    else (pos, baseColor) in
  let pSize := u_pointSize in
  let pSize :=
    if Rltb 0.5 maskVal then
      let pSize := pSize * 1.5 in
      if Rltb 3.5 (u_gesture U) && Rltb dist 0.5 then pSize * 0.8 else pSize
    else pSize in
  (mkVsOut (vec4 (x3 pos) (y3 pos) (z3 pos) 1) baseColor (z3 pos) (isQuantum a_index),
   pSize).

End Scatter.

(* ================================================================== *)
(** * The reveal mask: an offscreen 2D canvas *)

(** One pixel of the mask canvas: its red channel (the channel the vertex
    stage samples) and its alpha, both in [0, 1], colour not premultiplied. *)
Record Pixel := mkPixel { red : R; alpha : R }.

(** A canvas: its [width] and [height] attributes and its bitmap; only the
    pixels [0 <= i < width], [0 <= j < height] exist. *)
Record Canvas := mkCanvas {
  width : Z;
  height : Z;
  pixel : Z -> Z -> Pixel
}.

(** The Canvas 2D operations the component calls, with the semantics of the
    HTML canvas and of "Compositing and Blending Level 1" (platform
    behaviour, not repository code). *)
Module Canvas2D.

Definition transparent : Pixel := mkPixel 0 0.
Definition black : Pixel := mkPixel 0 1.

(** [document.createElement('canvas')]: 300 by 150, transparent black. *)
Definition createElement : Canvas := mkCanvas 300 150 (fun _ _ => transparent).

Definition inside (c : Canvas) (i j : Z) : bool :=
  ((0 <=? i) && (i <? width c) && (0 <=? j) && (j <? height c))%Z.

(** Assigning [width] and [height]: the bitmap is replaced by a
    transparent black one of the new size (and the context state is reset,
    so a later [fillRect] composites with source-over). *)
Definition setSize (c : Canvas) (w h : Z) : Canvas :=
  mkCanvas w h (fun _ _ => transparent).

(** [fillStyle = 'black'; fillRect(x, y, w, h)] with source-over: an
    opaque source replaces what it covers. *)
Definition fillRectBlack (c : Canvas) (x y w h : Z) : Canvas :=
  mkCanvas (width c) (height c)
    (fun i j =>
       if (inside c i j && (x <=? i) && (i <? x + w) && (y <=? j) && (j <? y + h))%Z
       then black else pixel c i j).

(** A white radial gradient from centre [(x, y)], radius 0, to the same
    centre, radius [radius], with colour stops [rgba(255,255,255,a0)] at 0
    and [rgba(255,255,255,a1)] at 1: the source pixel at distance [d]. *)
Definition radialGradientWhite (radius a0 a1 d : R) : Pixel :=
  let t := GLSL.clamp (d / radius) 0 1 in
  mkPixel (GLSL.mix 1 1 t) (GLSL.mix a0 a1 t).

(** Blend mode [lighten]: [B(Cb, Cs) = max(Cb, Cs)]. *)
Definition lighten (Cb Cs : R) : R := Rmax Cb Cs.

(** A source pixel [s] drawn over the backdrop [b] with blend function
    [B], then composited with source-over:
    [ao = as + ab (1 - as)],
    [co = as (1 - ab) Cs + as ab B(Cb, Cs) + (1 - as) ab Cb],
    and the stored colour is [co / ao]. *)
Definition composite (B : R -> R -> R) (b s : Pixel) : Pixel :=
  let ao := alpha s + alpha b * (1 - alpha s) in
  let co := alpha s * (1 - alpha b) * red s
            + alpha s * alpha b * B (red b) (red s)
            + (1 - alpha s) * alpha b * red b in
  mkPixel (if Req_dec_T ao 0 then 0 else co / ao) ao.

(** [globalCompositeOperation = 'lighten'; fillStyle = g; beginPath();
    arc(x, y, radius, 0, 2 PI); fill()]: every pixel whose centre lies
    inside the disc is composited with the gradient's colour there. *)
Definition fillArcLighten (c : Canvas) (x y radius : R) (g : R -> Pixel) : Canvas :=
  mkCanvas (width c) (height c)
    (fun i j =>
       let d := GLSL.distance2 (vec2 (IZR i + 0.5) (IZR j + 0.5)) (vec2 x y) in
       if inside c i j && Rltb d radius
       then composite lighten (pixel c i j) (g d)
       else pixel c i j).

End Canvas2D.

(** The "Offscreen Canvas Init" effect: the value of [revealMaskRef]. *)
Definition initialMask : Canvas :=
  Canvas2D.fillRectBlack Canvas2D.createElement 0 0 100 100.

(** The mask value of a pixel. *)
Definition maskValue (m : Canvas) (i j : Z) : R := red (pixel m i j).

(* ================================================================== *)
(** * The frame orchestrator ([render]) *)

Inductive ColorScheme := cyber | warm | matrix.

(** [SimulationConfig] of [types.ts]; [staticImage] is kept as the flag
    "an image is set". *)
Record SimulationConfig := mkConfig {
  particleCount : Z;
  connectionDistance : R;
  speed : R;
  interactive : bool;
  showGrid : bool;
  colorScheme : ColorScheme;
  brightness : R;
  staticImage : bool
}.

(** What one call of [render] reads from outside: the timestamp [now], the
    client size of the canvas, and the image bound to texture unit 0. *)
Record Frame := mkFrame {
  now : R;
  clientWidth : Z;
  clientHeight : Z;
  source : Vec2 -> Vec4
}.

(** "Resize Mask Canvas" *)
Definition resizeMask (m : Canvas) (displayWidth displayHeight : Z) : Canvas :=
  if negb (width m =? displayWidth)%Z || negb (height m =? displayHeight)%Z then
    Canvas2D.fillRectBlack (Canvas2D.setSize m displayWidth displayHeight)
                           0 0 displayWidth displayHeight
  else m.

(** "Paint to Mask" *)
Definition paintMask (h : HandState) (m : Canvas) (displayWidth displayHeight : Z) : Canvas :=
  if (gesture h =? 1)%Z then
    let x := vx (handPos h) * IZR displayWidth in
    let y := (1 - vy (handPos h)) * IZR displayHeight in
    let radius := 80 in
    let g := Canvas2D.radialGradientWhite radius 0.2 0 in
    Canvas2D.fillArcLighten m x y radius g
  else m.

(** The mask after one frame. *)
Definition renderMask (h : HandState) (m : Canvas) (f : Frame) : Canvas :=
  paintMask h (resizeMask m (clientWidth f) (clientHeight f))
            (clientWidth f) (clientHeight f).

(** Sampling the uploaded mask canvas: the texture has [LINEAR] filters and
    [CLAMP_TO_EDGE] wrapping ([createTexture]), so a sample is the bilinear
    mix of the four nearest texels, with indices clamped to the bitmap. *)
Definition texel (m : Canvas) (i j : Z) : R :=
  maskValue m (Z.max 0 (Z.min i (width m - 1))) (Z.max 0 (Z.min j (height m - 1))).

Definition sampleMask (m : Canvas) (uv : Vec2) : Vec4 :=
  let x := vx uv * IZR (width m) - 0.5 in
  let y := vy uv * IZR (height m) - 0.5 in
  let i0 := Int_part x in
  let j0 := Int_part y in
  let fx := x - IZR i0 in
  let fy := y - IZR j0 in
  let v := GLSL.mix (GLSL.mix (texel m i0 j0) (texel m (i0 + 1) j0) fx)
                    (GLSL.mix (texel m i0 (j0 + 1)) (texel m (i0 + 1) (j0 + 1)) fx) fy in
  vec4 v v v 1.

(** The uniforms [render] uploads (both variants; SCATTER also uploads
    [u_pointSize], see [pointSize]). *)
Definition uniforms (config : SimulationConfig) (startTime : R)
    (h : HandState) (m : Canvas) (f : Frame) : Uniforms :=
  let time := (now f - startTime) / 1000 in
  let displayWidth := clientWidth f in
  let displayHeight := clientHeight f in
  mkUniforms time
    (vec2 (IZR displayWidth) (IZR displayHeight))
    (vec2 (vx (handPos h)) (vy (handPos h)))
    (vec2 (vx (handVel h)) (- vy (handVel h)))
    (IZR (gesture h))
    (source f)
    (sampleMask m)
    (IZR displayWidth / IZR displayHeight)
    (brightness config).

(** [u_pointSize] of the SCATTER variant. *)
Definition pointSize (f : Frame) : R := Math.max 2 (IZR (clientWidth f) / 200).

(** One call of [render] once the GL objects exist: the new mask and the
    uniforms of the draw call. *)
Definition render (config : SimulationConfig) (startTime : R)
    (h : HandState) (m : Canvas) (f : Frame) : Canvas * Uniforms :=
  let m' := renderMask h m f in
  (m', uniforms config startTime h m' f).

(** The time value the vertex stage receives in a frame. *)
Definition frameTime (config : SimulationConfig) (startTime : R)
    (h : HandState) (m : Canvas) (f : Frame) : R :=
  u_time (snd (render config startTime h m f)).

(* ================================================================== *)
(** * Sessions: detection cycles and frames *)

(** [lm[i]] of a hand that has the landmark (the pose service returns 21
    landmarks for a hand). *)
Definition lmk (lm : list Landmark) (i : nat) : Landmark := nth i lm (landmark 0 0 0).

(** A run of detection cycles: each element is the [results.landmarks] of
    one cycle.  A cycle that throws ends the run. *)
Fixpoint cycles (predict : HandState -> list (list Landmark) -> option HandState)
    (s : HandState) (inputs : list (list (list Landmark))) : option HandState :=
  match inputs with
  | [] => Some s
  | landmarks :: rest => s' <- predict s landmarks ;; cycles predict s' rest
  end.

(** The classifiers of the two variants. *)
Definition classifiers : list (HandState -> list (list Landmark) -> option HandState) :=
  [Lines.predict; Scatter.predict].

(** [n] consecutive cycles in which no hand is detected. *)
Definition lostCycles (n : nat) : list (list (list Landmark)) := repeat [] n.

(** The raw target [(1 - lm[9].x, lm[9].y)] of a cycle lies in the unit
    square (a cycle without a hand has no target). *)
Definition targetInUnitSquare (landmarks : list (list Landmark)) : Prop :=
  match landmarks with
  | [] => True
  | lm :: _ =>
      length lm = 21%nat
      /\ 0 <= 1 - lx (lmk lm 9) <= 1 /\ 0 <= ly (lmk lm 9) <= 1
  end.

Definition inUnitSquare (p : Vec2) : Prop := 0 <= vx p <= 1 /\ 0 <= vy p <= 1.

(** The velocity magnitude. *)
Definition speedOf (s : HandState) : R := Math.hypot (vx (handVel s)) (vy (handVel s)).

(** The two mutable cells of the component that the claims are about. *)
Record App := mkApp { hand : HandState; mask : Canvas }.

Definition initialApp : App := mkApp initialHand initialMask.

(** What happens in a session: a detection cycle with its result, or a
    rendered frame. *)
Inductive Event :=
| Detect (landmarks : list (list Landmark))
| Draw (f : Frame).

Definition step (predict : HandState -> list (list Landmark) -> option HandState)
    (a : App) (e : Event) : option App :=
  match e with
  | Detect landmarks => h <- predict (hand a) landmarks ;; Some (mkApp h (mask a))
  | Draw f => Some (mkApp (hand a) (renderMask (hand a) (mask a) f))
  end.

Fixpoint session (predict : HandState -> list (list Landmark) -> option HandState)
    (a : App) (events : list Event) : option App :=
  match events with
  | [] => Some a
  | e :: rest => a' <- step predict a e ;; session predict a' rest
  end.

(** No hand is detected in any detection cycle of the session. *)
Definition handAbsent (e : Event) : Prop :=
  match e with Detect landmarks => landmarks = [] | Draw _ => True end.

(** The masks of a run of frames, each painted with its own hand state. *)
Fixpoint frames (m : Canvas) (fs : list (HandState * Frame)) : Canvas :=
  match fs with
  | [] => m
  | (h, f) :: rest => frames (renderMask h m f) rest
  end.

(** The frame keeps the size the mask already has: no resize. *)
Definition sameSize (m : Canvas) (hf : HandState * Frame) : Prop :=
  clientWidth (snd hf) = width m /\ clientHeight (snd hf) = height m.

(* ================================================================== *)
(** * Example inputs *)

(** A hand for the examples: every landmark at the origin except the two
    base joints 9 and 13, so the middle and ring tips are curled onto the
    wrist and the thumb tip touches the index tip. *)
Definition curledPinchingHand : list Landmark :=
  map (fun i => if (Nat.eqb i 9 || Nat.eqb i 13)%bool
                then landmark 0 1 0 else landmark 0 0 0) (seq 0 21).

(** An open hand: the finger tips 12 and 16 twice as far from the wrist as
    the base joints, thumb tip and index tip apart. *)
Definition openHand : list Landmark :=
  map (fun i => if (Nat.eqb i 9 || Nat.eqb i 13)%bool then landmark 0 1 0
                else if (Nat.eqb i 12 || Nat.eqb i 16)%bool then landmark 0 2 0
                else if Nat.eqb i 4 then landmark 1 0 0
                else landmark 0 0 0) (seq 0 21).

(** The open hand with the thumb tip moved onto the index tip. *)
Definition pinchingHand : list Landmark :=
  map (fun i => if (Nat.eqb i 9 || Nat.eqb i 13)%bool then landmark 0 1 0
                else if (Nat.eqb i 12 || Nat.eqb i 16)%bool then landmark 0 2 0
                else landmark 0 0 0) (seq 0 21).

(** A hand state moving at speed 1 when detection is lost. *)
Definition movingHand : HandState :=
  mkHand (vec2 0.5 0.5) (vec2 0.5 0.5) (vec2 0 1) 2.

(** Uniforms of a frame in which a fist presses at the centre vertex: the
    hand at (0, 1) projects onto the origin of the plane. *)
Definition pressUniforms : Uniforms :=
  mkUniforms 0 (vec2 800 800) (vec2 0 1) (vec2 0 0) 1
             (fun _ => vec4 1 1 1 1) (fun _ => vec4 0 0 0 1) 1 1.

(** Uniforms of a frame in which the hand pinches at the centre vertex. *)
Definition pinchUniforms : Uniforms :=
  mkUniforms 0 (vec2 800 800) (vec2 0 1) (vec2 0 0) 4
             (fun _ => vec4 1 1 1 1) (fun _ => vec4 0 0 0 1) 1 1.

(** A vertex at distance 0.075 from the centre of the plane (aspect 1). *)
Definition offCentre : Vec2 := vec2 0.5375 0.5.

(** The falloff the spec names: [influence = smoothstep(radius, 0, distance)]. *)
Definition influence (radius d : R) : R := GLSL.smoothstep radius 0 d.

(** The linear falloff [(radius - distance) / radius]. *)
Definition ramp (radius d : R) : R := (radius - d) / radius.

(** The value of [ptr] in iteration [(i, j)] of the grid loops: the id of
    the vertex in column [i], row [j]. *)
Definition vertexId (m : Mesh) (i j : Z) : nat := Z.to_nat (i * rows m + j).

(** The aspect ratios for which a grid of [count] vertices has at least two
    rows and two columns: [count / (count - 1)^2 <= aspect < count]. *)
Definition aspectInRange (count : Z) (aspect : R) : Prop :=
  IZR count <= aspect * ((IZR count - 1) * (IZR count - 1)) /\ aspect < IZR count.

(** A hand state with the FIST code at the centre of the display. *)
Definition fistAtCentre : HandState :=
  mkHand (vec2 0.5 0.5) (vec2 0.5 0.5) (vec2 0 0) 1.

(** A fist over pixel (50, 50) of a 300 by 150 display. *)
Definition fistAt50 : HandState :=
  mkHand (vec2 (1 / 6) (2 / 3)) (vec2 0.5 0.5) (vec2 0 0) 1.

(** A frame at the default canvas size, which the initial mask has too. *)
Definition defaultSizeFrame : Frame := mkFrame 16 300 150 (fun _ => vec4 1 1 1 1).

(** The pull-and-wave displacement of both variants: [pos.xy] after
    [mix(pos.xy, hand + (pos.xy - hand) * keep, k * pull)] and
    [pos.xy += u_handVel * k * amp]. *)
Definition pullAndWave (U : Uniforms) (a_uv : Vec2) (keep pull amp k : R) : Vec2 :=
  let base := basePos U a_uv in
  let xy := vec2 (x3 base) (y3 base) in
  let hand := handPos2D U in
  GLSL.add2
    (GLSL.mix2 xy (GLSL.add2 hand (GLSL.scale2 (GLSL.sub2 xy hand) keep)) (k * pull))
    (GLSL.scale2 (GLSL.scale2 (u_handVel U) k) amp).

(** The configuration [App.tsx] starts with. *)
Definition defaultConfig : SimulationConfig :=
  mkConfig 15000 45 0.2 true false cyber 1 false.

(** [{...config, speed: v}], what the "Fluctuation Speed" slider of the
    control panel stores. *)
Definition withSpeed (config : SimulationConfig) (v : R) : SimulationConfig :=
  mkConfig (particleCount config) (connectionDistance config) v
           (interactive config) (showGrid config) (colorScheme config)
           (brightness config) (staticImage config).

(** A frame one second (1000 ms) after a start time of 0. *)
Definition frameAtOneSecond : Frame := mkFrame 1000 800 600 (fun _ => vec4 1 1 1 1).

(** A pixel whose channels are in range. *)
Definition wfPixel (p : Pixel) : Prop := 0 <= red p <= 1 /\ 0 <= alpha p <= 1.

Definition wfMask (m : Canvas) : Prop := forall i j, wfPixel (pixel m i j).

(** A colour with equal red, green and blue. *)
Definition grayscale (c : Vec3) : Prop := x3 c = y3 c /\ y3 c = z3 c.

(** Every pixel of the mask has value 0. *)
Definition maskAllZero (m : Canvas) : Prop := forall i j, maskValue m i j = 0.

(* ================================================================== *)
(** * The fragment stage and the cursor overlay *)

(** [length(v)] of a [vec2]. *)
Definition length2 (a : Vec2) : R := sqrt (vx a * vx a + vy a * vy a).

(** [FRAGMENT_SHADER] of [src/components/WeaveCanvas.tsx]. *)
Module LinesFragment.

(** [main]: the value written to [fragColor]. *)
Definition fragment_main (u_brightness : R) (v_color : Vec3) (v_depth v_isQuantum : R)
  : Vec4 :=
  let finalColor := GLSL.scale3 v_color u_brightness in
  let finalColor :=
    if Rltb 0.5 v_isQuantum then GLSL.scale3 finalColor 1.3 else finalColor in
  let alpha := GLSL.clamp (0.6 + v_depth * 0.8) 0.1 0.8 in
  vec4 (x3 finalColor) (y3 finalColor) (z3 finalColor) alpha.

End LinesFragment.

(** [FRAGMENT_SHADER] of [src/unnamed/part_000]. *)
Module ScatterFragment.

(** [main]: [None] is [discard], otherwise the value written to
    [fragColor]. *)
Definition fragment_main (u_brightness : R) (gl_PointCoord : Vec2)
    (v_color : Vec3) (v_depth v_isQuantum : R) : option Vec4 :=
  let coord := GLSL.sub2 gl_PointCoord (vec2 0.5 0.5) in
  let dist := length2 coord in
  if Rltb 0.5 dist then None
  else
    let alpha := 1 - GLSL.smoothstep 0.3 0.5 dist in
    let finalColor := GLSL.scale3 v_color u_brightness in
    let '(finalColor, alpha) :=
      if Rltb 0.5 v_isQuantum then (GLSL.scale3 finalColor 1.2, 1)
      else (finalColor, alpha) in
    let alpha := alpha * GLSL.clamp (1 + v_depth * 0.5) 0.2 1 in
    Some (vec4 (x3 finalColor) (y3 finalColor) (z3 finalColor) alpha).

End ScatterFragment.

(** What [render] draws on the overlay canvas after [clearRect]: circles
    [arc(x, y, r, 0, 2 PI)] that are stroked or filled (styles and dash
    patterns are not recorded). *)
Inductive Mark :=
| Stroke (x y r : R)
| Fill (x y r : R).

Definition markCentre (k : Mark) : Vec2 :=
  match k with Stroke x y _ | Fill x y _ => vec2 x y end.

Definition markRadius (k : Mark) : R :=
  match k with Stroke _ _ r | Fill _ _ r => r end.

(** The centre both the brush and the cursor use:
    [x = handPos.x * displayWidth], [y = (1 - handPos.y) * displayHeight]. *)
Definition screenPos (h : HandState) (displayWidth displayHeight : Z) : Vec2 :=
  vec2 (vx (handPos h) * IZR displayWidth) ((1 - vy (handPos h)) * IZR displayHeight).

(** The overlay of the LINES variant. *)
Definition linesOverlay (h : HandState) (displayWidth displayHeight : Z) : list Mark :=
  let x := vx (handPos h) * IZR displayWidth in
  let y := (1 - vy (handPos h)) * IZR displayHeight in
  if (gesture h =? 1)%Z then [Stroke x y 60; Fill x y 60]
  else if (gesture h =? 4)%Z then [Stroke x y 20]
  else if (gesture h =? 2)%Z then [Stroke x y 50]
  else [].

(** The overlay of the SCATTER variant. *)
Definition scatterOverlay (h : HandState) (displayWidth displayHeight : Z) : list Mark :=
  let x := vx (handPos h) * IZR displayWidth in
  let y := (1 - vy (handPos h)) * IZR displayHeight in
  if (gesture h =? 1)%Z then [Stroke x y 60; Fill x y 60]
  else if (gesture h =? 4)%Z then [Fill x y 10; Stroke x y 40]
  else [].

(** The distance of the centre of pixel [(i, j)] from the brush centre of a
    frame. *)
Definition brushDistance (h : HandState) (displayWidth displayHeight : Z) (i j : Z) : R :=
  GLSL.distance2 (vec2 (IZR i + 0.5) (IZR j + 0.5))
                 (screenPos h displayWidth displayHeight).


(** The raw target of a hand: [(1 - lm[9].x, lm[9].y)]. *)
Definition rawTarget (lm : list Landmark) : Vec2 :=
  vec2 (1 - lx (lmk lm 9)) (ly (lmk lm 9)).

(** A vector whose components are between -1 and 1. *)
Definition inUnitBox (v : Vec2) : Prop := -1 <= vx v <= 1 /\ -1 <= vy v <= 1.


(** The state keeps its raw target in the unit square and its velocity in
    the box [-1, 1]^2. *)
Definition boundedHand (s : HandState) : Prop :=
  inUnitSquare (prevHandPos s) /\ inUnitBox (handVel s).

(** A state whose previous raw target is the target of [openHand], still
    carrying an upward velocity of 1. *)
Definition haltedHand : HandState :=
  mkHand (vec2 0.5 0.5) (vec2 1 1) (vec2 0 1) 2.

(** A value of [uvData] or a hand coordinate in [0, 1]. *)
Definition inUnit (u : R) : Prop := 0 <= u <= 1.

(** What both vertex stages emit for a vertex no warp touches: the base
    position with depth 0 and the base colour ([boost] as in [baseColor]). *)
Definition restingVertex (boost : R) (U : Uniforms) (a_uv : Vec2) (a_index : R) : VsOut :=
  mkVsOut (vec4 (x3 (basePos U a_uv)) (y3 (basePos U a_uv)) 0 1)
          (baseColor boost U a_uv) 0 (isQuantum a_index).

(** Uniforms of an OPEN frame over an unrevealed mask. *)
Definition openUniforms : Uniforms :=
  mkUniforms 0 (vec2 800 800) (vec2 0 1) (vec2 0 0) 2
             (fun _ => vec4 1 1 1 1) (fun _ => vec4 0 0 0 1) 1 1.

(** A vertex at the left edge of the plane, at distance 1 from the centre
    (aspect 1). *)
Definition farVertex : Vec2 := vec2 0 0.5.

(** The fragment the LINES program computes for what its vertex stage
    emitted (a fragment at a vertex, where the varyings are the vertex's
    own). *)
Definition linesFragmentAt (U : Uniforms) (a_uv : Vec2) (a_index : R) : Vec4 :=
  let out := Lines.vertex_main U a_uv a_index in
  LinesFragment.fragment_main (u_brightness U) (v_color out) (v_depth out)
                              (v_isQuantum out).

(** A mark of the cursor overlay sits on the brush centre and is no larger
    than the FIST ring. *)
Definition cursorMark (h : HandState) (displayWidth displayHeight : Z) (k : Mark) : Prop :=
  markCentre k = screenPos h displayWidth displayHeight /\ 0 < markRadius k <= 60.

(* ================================================================== *)
(** * Properties *)

Lemma Rltb_true (a b : R) : Rltb a b = true <-> a < b.
Proof. unfold Rltb; destruct (Rlt_dec a b); split; intros; try lra; congruence. Qed.

Lemma Rltb_false (a b : R) : Rltb a b = false <-> b <= a.
Proof. unfold Rltb; destruct (Rlt_dec a b); split; intros; try lra; congruence. Qed.

Lemma Rltb_lt (a b : R) : a < b -> Rltb a b = true.
Proof. apply Rltb_true. Qed.

Lemma Rltb_ge (a b : R) : b <= a -> Rltb a b = false.
Proof. apply Rltb_false. Qed.

Lemma ceil_spec (x : R) : IZR (Math.ceil x) - 1 < x <= IZR (Math.ceil x).
Proof.
  unfold Math.ceil. rewrite minus_IZR.
  destruct (archimed (- x)) as [H1 H2]. split; lra.
Qed.

Lemma ceil_unique (x : R) (n : Z) : IZR n - 1 < x <= IZR n -> Math.ceil x = n.
Proof.
  intros [H1 H2]. destruct (ceil_spec x) as [H3 H4].
  assert (Ha : (Math.ceil x < n + 1)%Z).
  { apply lt_IZR. rewrite plus_IZR. lra. }
  assert (Hb : (n < Math.ceil x + 1)%Z).
  { apply lt_IZR. rewrite plus_IZR. lra. }
  lia.
Qed.

Lemma ceil_IZR (n : Z) : Math.ceil (IZR n) = n.
Proof. apply ceil_unique. lra. Qed.

Lemma ceil_ge (x : R) (n : Z) : IZR n - 1 < x -> (n <= Math.ceil x)%Z.
Proof.
  intros H. destruct (ceil_spec x) as [_ H4].
  assert (Ha : (n - 1 < Math.ceil x)%Z).
  { apply lt_IZR. rewrite minus_IZR. lra. }
  lia.
Qed.

Lemma ceil_le (x : R) (n : Z) : x <= IZR n -> (Math.ceil x <= n)%Z.
Proof.
  intros H. destruct (ceil_spec x) as [H3 _].
  assert (Ha : (Math.ceil x - 1 < n)%Z).
  { apply lt_IZR. rewrite minus_IZR. lra. }
  lia.
Qed.

Lemma hypot_nonneg (a b : R) : 0 <= Math.hypot a b.
Proof. apply sqrt_pos. Qed.

Lemma hypot_scale (k a b : R) :
  0 <= k -> Math.hypot (a * k) (b * k) = k * Math.hypot a b.
Proof.
  intros Hk. unfold Math.hypot.
  replace (a * k * (a * k) + b * k * (b * k)) with (k * k * (a * a + b * b)) by ring.
  rewrite sqrt_mult_alt by nra.
  rewrite sqrt_square by assumption. reflexivity.
Qed.


(* ------------------------------------------------------------------ *)
(** ** The gesture classifier *)

Lemma at_lmk (lm : list Landmark) (i : nat) :
  (i < length lm)%nat -> at_ lm i = Some (lmk lm i).
Proof. intros H. unfold at_, lmk. apply nth_error_nth'. exact H. Qed.

Lemma Lines_classify_21 (lm : list Landmark) :
  length lm = 21%nat ->
  Lines.classify lm =
    Some (if Lines.isFist (lmk lm 0) (lmk lm 12) (lmk lm 9) (lmk lm 16) (lmk lm 13)
          then 1%Z
          else if Rltb (pinchDist (lmk lm 4) (lmk lm 8)) 0.05 then 4%Z else 2%Z).
Proof.
  intros H. unfold Lines.classify.
  rewrite !at_lmk by lia. reflexivity.
Qed.

Lemma Scatter_classify_21 (lm : list Landmark) :
  length lm = 21%nat ->
  Scatter.classify lm =
    Some (if Rltb (pinchDist (lmk lm 4) (lmk lm 8)) 0.05 then 4%Z
          else if Scatter.isFist (lmk lm 0) (lmk lm 12) (lmk lm 9) then 1%Z else 2%Z).
Proof.
  intros H. unfold Scatter.classify.
  rewrite !at_lmk by lia. reflexivity.
Qed.

Lemma Lines_predict_21 (s : HandState) (lm : list Landmark) (rest : list (list Landmark)) :
  length lm = 21%nat ->
  exists g, Lines.classify lm = Some g
            /\ Lines.predict s (lm :: rest) = Some (track s (lmk lm 9) g).
Proof.
  intros H. rewrite (Lines_classify_21 lm H). eexists. split; [reflexivity|].
  unfold Lines.predict. rewrite at_lmk by lia.
  rewrite (Lines_classify_21 lm H). reflexivity.
Qed.

Lemma Scatter_predict_21 (s : HandState) (lm : list Landmark) (rest : list (list Landmark)) :
  length lm = 21%nat ->
  exists g, Scatter.classify lm = Some g
            /\ Scatter.predict s (lm :: rest) = Some (track s (lmk lm 9) g).
Proof.
  intros H. rewrite (Scatter_classify_21 lm H). eexists. split; [reflexivity|].
  unfold Scatter.predict. rewrite at_lmk by lia.
  rewrite (Scatter_classify_21 lm H). reflexivity.
Qed.

Lemma hypot_0_0 : Math.hypot (0 - 0) (0 - 0) = 0.
Proof.
  unfold Math.hypot. replace ((0 - 0) * (0 - 0) + (0 - 0) * (0 - 0)) with 0 by ring.
  apply sqrt_0.
Qed.

Lemma hypot_0_1 : Math.hypot (0 - 0) (1 - 0) = 1.
Proof.
  unfold Math.hypot. replace ((0 - 0) * (0 - 0) + (1 - 0) * (1 - 0)) with 1 by ring.
  apply sqrt_1.
Qed.

Lemma hypot_0_2 : Math.hypot (0 - 0) (2 - 0) = 2.
Proof.
  unfold Math.hypot. replace ((0 - 0) * (0 - 0) + (2 - 0) * (2 - 0)) with (2 * 2) by ring.
  apply sqrt_square. lra.
Qed.

Lemma pinchDist_curled :
  pinchDist (lmk curledPinchingHand 4) (lmk curledPinchingHand 8) = 0.
Proof. unfold pinchDist; cbn. apply hypot_0_0. Qed.

(** C4.  Whatever the pose service returns in a cycle (no hand, or hands of
    21 landmarks each), both classifiers return, and the stored gesture is
    the number of one of NONE, FIST, OPEN, PINCH; when the thumb tip is
    nearer than 0.05 to the index tip and the variant's fist condition does
    not hold, it is PINCH. *)
Theorem C4_gesture_code_total (s : HandState) (landmarks : list (list Landmark)) :
  Forall (fun lm => length lm = 21%nat) landmarks ->
  (exists s', Lines.predict s landmarks = Some s'
     /\ (exists g, gestureCode (gesture s') = Some g)
     /\ (forall lm rest, landmarks = lm :: rest ->
           pinchDist (lmk lm 4) (lmk lm 8) < 0.05 ->
           Lines.isFist (lmk lm 0) (lmk lm 12) (lmk lm 9) (lmk lm 16) (lmk lm 13) = false ->
           gestureCode (gesture s') = Some PINCH))
  /\
  (exists s', Scatter.predict s landmarks = Some s'
     /\ (exists g, gestureCode (gesture s') = Some g)
     /\ (forall lm rest, landmarks = lm :: rest ->
           pinchDist (lmk lm 4) (lmk lm 8) < 0.05 ->
           Scatter.isFist (lmk lm 0) (lmk lm 12) (lmk lm 9) = false ->
           gestureCode (gesture s') = Some PINCH)).
Proof.
  intros Hall. destruct landmarks as [|lm rest].
  - split; (eexists; split; [reflexivity|]; split;
      [exists NONE; reflexivity | intros ? ? Habs; discriminate Habs]).
  - inversion Hall as [|? ? H21 _]; subst. split.
    + destruct (Lines_predict_21 s lm rest H21) as [g [Hg Hp]].
      rewrite Hp. eexists; split; [reflexivity|].
      rewrite (Lines_classify_21 lm H21) in Hg. cbn [gesture track]. split.
      * destruct (Lines.isFist _ _ _ _ _); [|destruct (Rltb _ _)];
          injection Hg as <-; eexists; reflexivity.
      * intros lm' rest' Heq Hpinch Hfist. injection Heq as <- <-.
        rewrite Hfist, (Rltb_lt _ _ Hpinch) in Hg. injection Hg as <-. reflexivity.
    + destruct (Scatter_predict_21 s lm rest H21) as [g [Hg Hp]].
      rewrite Hp. eexists; split; [reflexivity|].
      rewrite (Scatter_classify_21 lm H21) in Hg. cbn [gesture track]. split.
      * destruct (Rltb _ _); [|destruct (Scatter.isFist _ _ _)];
          injection Hg as <-; eexists; reflexivity.
      * intros lm' rest' Heq Hpinch Hfist. injection Heq as <- <-.
        rewrite (Rltb_lt _ _ Hpinch) in Hg. injection Hg as <-. reflexivity.
Qed.

(** C9.  A hand whose middle and ring tips are both within 0.85 of their
    base-to-wrist distances and whose thumb tip is nearer than 0.05 to the
    index tip is FIST for the LINES classifier and PINCH for the SCATTER
    classifier. *)
Theorem C9_priority_differs (s : HandState) (lm : list Landmark)
    (rest : list (list Landmark)) :
  length lm = 21%nat ->
  distToWrist (lmk lm 12) (lmk lm 0) < distToWrist (lmk lm 9) (lmk lm 0) * 0.85 ->
  distToWrist (lmk lm 16) (lmk lm 0) < distToWrist (lmk lm 13) (lmk lm 0) * 0.85 ->
  pinchDist (lmk lm 4) (lmk lm 8) < 0.05 ->
  (exists s1, Lines.predict s (lm :: rest) = Some s1
              /\ gestureCode (gesture s1) = Some FIST)
  /\ (exists s2, Scatter.predict s (lm :: rest) = Some s2
                 /\ gestureCode (gesture s2) = Some PINCH).
Proof.
  intros H21 Hmid Hring Hpinch. split.
  - destruct (Lines_predict_21 s lm rest H21) as [g [Hg Hp]].
    rewrite Hp. eexists; split; [reflexivity|].
    rewrite (Lines_classify_21 lm H21) in Hg. unfold Lines.isFist in Hg.
    rewrite (Rltb_lt _ _ Hmid), (Rltb_lt _ _ Hring) in Hg.
    injection Hg as <-. reflexivity.
  - destruct (Scatter_predict_21 s lm rest H21) as [g [Hg Hp]].
    rewrite Hp. eexists; split; [reflexivity|].
    rewrite (Scatter_classify_21 lm H21) in Hg.
    rewrite (Rltb_lt _ _ Hpinch) in Hg.
    injection Hg as <-. reflexivity.
Qed.

Lemma isFist_pinchingHand :
  Lines.isFist (lmk pinchingHand 0) (lmk pinchingHand 12) (lmk pinchingHand 9)
               (lmk pinchingHand 16) (lmk pinchingHand 13) = false
  /\ Scatter.isFist (lmk pinchingHand 0) (lmk pinchingHand 12) (lmk pinchingHand 9) = false.
Proof.
  change (lmk pinchingHand 0) with (landmark 0 0 0).
  change (lmk pinchingHand 12) with (landmark 0 2 0).
  change (lmk pinchingHand 9) with (landmark 0 1 0).
  unfold Lines.isFist, Scatter.isFist, distToWrist; cbn [lx ly].
  rewrite hypot_0_2, hypot_0_1.
  rewrite !(Rltb_ge 2) by lra. split; reflexivity.
Qed.

Lemma pinchDist_pinchingHand :
  pinchDist (lmk pinchingHand 4) (lmk pinchingHand 8) < 0.05.
Proof.
  change (lmk pinchingHand 4) with (landmark 0 0 0).
  change (lmk pinchingHand 8) with (landmark 0 0 0).
  unfold pinchDist; cbn [lx ly]. rewrite hypot_0_0. lra.
Qed.

(** C4 at the pinching hand: both variants store PINCH. *)
Lemma C4_witness :
  (exists s', Lines.predict initialHand [pinchingHand] = Some s'
              /\ gestureCode (gesture s') = Some PINCH)
  /\ (exists s', Scatter.predict initialHand [pinchingHand] = Some s'
                 /\ gestureCode (gesture s') = Some PINCH).
Proof.
  destruct (C4_gesture_code_total initialHand [pinchingHand])
    as [[s1 [Hp1 [_ H1]]] [s2 [Hp2 [_ H2]]]].
  { constructor; [reflexivity | constructor]. }
  split.
  - exists s1. split; [exact Hp1|].
    apply (H1 pinchingHand []);
      [reflexivity | exact pinchDist_pinchingHand | exact (proj1 isFist_pinchingHand)].
  - exists s2. split; [exact Hp2|].
    apply (H2 pinchingHand []);
      [reflexivity | exact pinchDist_pinchingHand | exact (proj2 isFist_pinchingHand)].
Defined.

(** C9 at the curled, pinching hand. *)
Lemma C9_witness :
  (exists s1, Lines.predict initialHand [curledPinchingHand] = Some s1
              /\ gestureCode (gesture s1) = Some FIST)
  /\ (exists s2, Scatter.predict initialHand [curledPinchingHand] = Some s2
                 /\ gestureCode (gesture s2) = Some PINCH).
Proof.
  apply (C9_priority_differs initialHand curledPinchingHand []).
  - reflexivity.
  - change (lmk curledPinchingHand 12) with (landmark 0 0 0).
    change (lmk curledPinchingHand 0) with (landmark 0 0 0).
    change (lmk curledPinchingHand 9) with (landmark 0 1 0).
    unfold distToWrist; cbn [lx ly]. rewrite hypot_0_0, hypot_0_1. lra.
  - change (lmk curledPinchingHand 16) with (landmark 0 0 0).
    change (lmk curledPinchingHand 0) with (landmark 0 0 0).
    change (lmk curledPinchingHand 13) with (landmark 0 1 0).
    unfold distToWrist; cbn [lx ly]. rewrite hypot_0_0, hypot_0_1. lra.
  - rewrite pinchDist_curled. lra.
Defined.

(* ------------------------------------------------------------------ *)
(** ** Smoothing of position and decay of velocity *)

Lemma track_handPos (s : HandState) (l9 : Landmark) (g : Z) :
  handPos (track s l9 g) =
  vec2 (GLSL.mix (vx (handPos s)) (1 - lx l9) 0.3)
       (GLSL.mix (vy (handPos s)) (ly l9) 0.3).
Proof. unfold track, GLSL.mix; cbn. f_equal; lra. Qed.

Lemma mix_between (a b t : R) :
  0 <= t <= 1 -> 0 <= a <= 1 -> 0 <= b <= 1 -> 0 <= GLSL.mix a b t <= 1.
Proof. unfold GLSL.mix. intros Ht Ha Hb. split; nra. Qed.

Lemma Lines_predict_lost (s : HandState) : Lines.predict s [] = Some (lost s).
Proof. reflexivity. Qed.

Lemma Scatter_predict_lost (s : HandState) : Scatter.predict s [] = Some (lost s).
Proof. reflexivity. Qed.

Lemma Lines_predict_track (s : HandState) (lm : list Landmark) (rest : list (list Landmark)) :
  length lm = 21%nat ->
  exists g, Lines.predict s (lm :: rest) = Some (track s (lmk lm 9) g).
Proof.
  intros H. destruct (Lines_predict_21 s lm rest H) as [g [_ Hp]]. exists g. exact Hp.
Qed.

Lemma Scatter_predict_track (s : HandState) (lm : list Landmark) (rest : list (list Landmark)) :
  length lm = 21%nat ->
  exists g, Scatter.predict s (lm :: rest) = Some (track s (lmk lm 9) g).
Proof.
  intros H. destruct (Scatter_predict_21 s lm rest H) as [g [_ Hp]]. exists g. exact Hp.
Qed.

(** What the two classifiers have in common is all the tracking proofs
    need. *)
Section Tracking.

Variable predict : HandState -> list (list Landmark) -> option HandState.

Hypothesis predict_lost : forall s, predict s [] = Some (lost s).

Hypothesis predict_track : forall s lm rest,
  length lm = 21%nat ->
  exists g, predict s (lm :: rest) = Some (track s (lmk lm 9) g).

Lemma predict_in_unit_square (s : HandState) (landmarks : list (list Landmark)) :
  inUnitSquare (handPos s) -> targetInUnitSquare landmarks ->
  exists s', predict s landmarks = Some s' /\ inUnitSquare (handPos s').
Proof.
  intros [Hx Hy] Ht. destruct landmarks as [|lm rest].
  - exists (lost s). split; [apply predict_lost | split; assumption].
  - destruct Ht as [H21 [Htx Hty]].
    destruct (predict_track s lm rest H21) as [g Hg].
    exists (track s (lmk lm 9) g). split; [exact Hg|].
    rewrite track_handPos. split; cbn [vx vy]; apply mix_between; (assumption || lra).
Qed.

Lemma cycles_in_unit_square (inputs : list (list (list Landmark))) :
  forall s, inUnitSquare (handPos s) -> Forall targetInUnitSquare inputs ->
  exists s', cycles predict s inputs = Some s' /\ inUnitSquare (handPos s').
Proof.
  induction inputs as [|landmarks rest IH]; intros s Hs Hall.
  - exists s. split; [reflexivity | exact Hs].
  - inversion Hall as [|? ? Hhd Htl]; subst.
    destruct (predict_in_unit_square s landmarks Hs Hhd) as [s1 [Hp Hs1]].
    destruct (IH s1 Hs1 Htl) as [s2 [Hc Hs2]].
    exists s2. split; [|exact Hs2]. cbn [cycles]. rewrite Hp. exact Hc.
Qed.

Lemma lost_cycles (n : nat) :
  forall s, exists s',
    cycles predict s (lostCycles n) = Some s'
    /\ handPos s' = handPos s
    /\ vx (handVel s') = vx (handVel s) * 0.9 ^ n
    /\ vy (handVel s') = vy (handVel s) * 0.9 ^ n.
Proof.
  induction n as [|n IH]; intros s.
  - exists s. cbn. repeat split; lra.
  - destruct (IH (lost s)) as [s' [Hc [Hp [Hx Hy]]]].
    exists s'. unfold lostCycles in *. cbn [repeat cycles].
    rewrite predict_lost. cbn [bind]. split; [exact Hc|].
    cbn [lost handPos handVel vx vy] in Hp, Hx, Hy.
    rewrite Hp, Hx, Hy. cbn [pow]. repeat split; lra.
Qed.

End Tracking.

Lemma pow_09_small (n : nat) : (44 <= n)%nat -> 0.9 ^ n < 0.01.
Proof.
  intros Hn. replace n with (44 + (n - 44))%nat by lia.
  rewrite pow_add.
  assert (H44 : 0.9 ^ 44 < 0.01) by lra.
  assert (H0 : 0 < 0.9 ^ 44) by (apply pow_lt; lra).
  assert (Hk : 0.9 ^ (n - 44) <= 1).
  { rewrite <- (pow1 (n - 44)). apply pow_incr. lra. }
  nra.
Qed.

(** C10.  The smoothed position starts at (0.5, 0.5); a cycle with a hand
    moves it to the convex combination [0.7 * pos + 0.3 * target]; a cycle
    without a hand leaves it unchanged; and over any run of cycles whose raw
    targets lie in the unit square it stays in the unit square (both
    variants). *)
Theorem C10_position_in_unit_square (inputs : list (list (list Landmark))) :
  Forall targetInUnitSquare inputs ->
  handPos initialHand = vec2 0.5 0.5
  /\ (forall s l9 g,
        handPos (track s l9 g) =
        vec2 (vx (handPos s) * (1 - 0.3) + (1 - lx l9) * 0.3)
             (vy (handPos s) * (1 - 0.3) + ly l9 * 0.3))
  /\ (forall s, exists s1, Lines.predict s [] = Some s1 /\ handPos s1 = handPos s)
  /\ (forall s, exists s1, Scatter.predict s [] = Some s1 /\ handPos s1 = handPos s)
  /\ (exists s, cycles Lines.predict initialHand inputs = Some s
                /\ inUnitSquare (handPos s))
  /\ (exists s, cycles Scatter.predict initialHand inputs = Some s
                /\ inUnitSquare (handPos s)).
Proof.
  intros Hall.
  assert (H0 : inUnitSquare (handPos initialHand)).
  { unfold inUnitSquare; cbn. lra. }
  split; [reflexivity|].
  split; [intros s l9 g; apply track_handPos|].
  split; [intros s; exists (lost s); split; reflexivity|].
  split; [intros s; exists (lost s); split; reflexivity|].
  split.
  - apply (cycles_in_unit_square Lines.predict Lines_predict_lost Lines_predict_track);
      assumption.
  - apply (cycles_in_unit_square Scatter.predict Scatter_predict_lost Scatter_predict_track);
      assumption.
Qed.

(** C6.  In a cycle without a hand both velocity components are multiplied
    by 0.9; after [n] such cycles in a row the components and the magnitude
    are [0.9 ^ n] times what they were; [0.9 ^ 44 < 0.01], so from 44 cycles
    on a velocity of magnitude at most 1 is below 0.01 (both variants). *)
Theorem C6_velocity_decay (s : HandState) (n : nat) :
  (forall predict, In predict classifiers ->
     exists s',
       cycles predict s (lostCycles n) = Some s'
       /\ vx (handVel s') = vx (handVel s) * 0.9 ^ n
       /\ vy (handVel s') = vy (handVel s) * 0.9 ^ n
       /\ speedOf s' = 0.9 ^ n * speedOf s
       /\ ((44 <= n)%nat -> speedOf s <= 1 -> speedOf s' < 0.01))
  /\ 0.9 ^ 44 < 0.01.
Proof.
  split; [|lra].
  intros predict Hp.
  assert (H : exists s', cycles predict s (lostCycles n) = Some s'
                         /\ handPos s' = handPos s
                         /\ vx (handVel s') = vx (handVel s) * 0.9 ^ n
                         /\ vy (handVel s') = vy (handVel s) * 0.9 ^ n).
  { destruct Hp as [<- | [<- | []]].
    - apply (lost_cycles Lines.predict Lines_predict_lost).
    - apply (lost_cycles Scatter.predict Scatter_predict_lost). }
  destruct H as [s' [Hc [_ [Hx Hy]]]].
  exists s'. split; [exact Hc|]. split; [exact Hx|]. split; [exact Hy|].
  assert (Hpow : 0 <= 0.9 ^ n) by (apply pow_le; lra).
  assert (Hs : speedOf s' = 0.9 ^ n * speedOf s).
  { unfold speedOf. rewrite Hx, Hy. apply hypot_scale. exact Hpow. }
  split; [exact Hs|].
  intros Hn H1. rewrite Hs.
  pose proof (pow_09_small n Hn) as Hsmall.
  pose proof (hypot_nonneg (vx (handVel s)) (vy (handVel s))) as Hnn.
  fold (speedOf s) in Hnn. nra.
Qed.

(** C10 on a session of an open hand followed by a lost cycle. *)
Lemma C10_witness :
  (exists s, cycles Lines.predict initialHand [[openHand]; []] = Some s
             /\ inUnitSquare (handPos s))
  /\ (exists s, cycles Scatter.predict initialHand [[openHand]; []] = Some s
                /\ inUnitSquare (handPos s)).
Proof.
  assert (Hin : Forall targetInUnitSquare [[openHand]; []]).
  { constructor; [|constructor; [exact I | constructor]].
    split; [reflexivity|].
    change (lmk openHand 9) with (landmark 0 1 0). cbn [lx ly]. lra. }
  destruct (C10_position_in_unit_square [[openHand]; []] Hin)
    as [_ [_ [_ [_ [HL HS]]]]].
  split; assumption.
Defined.

(** C6 after 44 lost cycles from a hand that moved at speed 1. *)
Lemma C6_witness :
  exists s', cycles Lines.predict movingHand (lostCycles 44) = Some s'
             /\ speedOf s' < 0.01.
Proof.
  destruct (C6_velocity_decay movingHand 44) as [H _].
  destruct (H Lines.predict) as [s' [Hc [_ [_ [_ Hsmall]]]]].
  { left; reflexivity. }
  exists s'. split; [exact Hc|].
  apply Hsmall; [lia|].
  unfold speedOf, movingHand, Math.hypot; cbn [handVel vx vy].
  replace (0 * 0 + 1 * 1) with 1 by ring. rewrite sqrt_1. lra.
Defined.

(* ------------------------------------------------------------------ *)
(** ** The vertex stage *)

(** C5.  With the FIST code uploaded, a vertex nearer to the hand than the
    inner radius (0.25 in LINES, 0.2 in SCATTER) keeps its base [x] and [y]
    and gets the depth [- (innerRadius - dist) * k] (k = 0.6 in LINES, 0.5 in
    SCATTER); a vertex at or beyond the inner radius keeps its base position
    with depth 0; the colour is the base colour in both cases. *)
Theorem C5_press_indents_depth_only (U : Uniforms) (pSize : R) (a_uv : Vec2) (a_index : R) :
  u_gesture U = 1 ->
  let base := basePos U a_uv in
  let d := dist U a_uv in
  let lines := Lines.vertex_main U a_uv a_index in
  let scatter := fst (Scatter.vertex_main U pSize a_uv a_index) in
  (d < 0.25 ->
     gl_Position lines = vec4 (x3 base) (y3 base) (0 - (0.25 - d) * 0.6) 1
     /\ v_depth lines = 0 - (0.25 - d) * 0.6)
  /\ (0.25 <= d ->
     gl_Position lines = vec4 (x3 base) (y3 base) 0 1 /\ v_depth lines = 0)
  /\ v_color lines = baseColor 1.5 U a_uv
  /\ (d < 0.2 ->
     gl_Position scatter = vec4 (x3 base) (y3 base) (0 - (0.2 - d) * 0.5) 1
     /\ v_depth scatter = 0 - (0.2 - d) * 0.5)
  /\ (0.2 <= d ->
     gl_Position scatter = vec4 (x3 base) (y3 base) 0 1 /\ v_depth scatter = 0)
  /\ v_color scatter = baseColor 1.2 U a_uv.
Proof.
  intros Hg base d lines scatter.
  subst lines scatter. unfold Lines.vertex_main, Scatter.vertex_main.
  rewrite Hg. fold d. fold base.
  rewrite (Rltb_ge 1.5 1), (Rltb_ge 3.5 1), (Rltb_lt 0.5 1), (Rltb_lt 1 1.5) by lra.
  cbn [andb fst].
  split; [intros Hd; rewrite (Rltb_lt _ _ Hd); split; reflexivity|].
  split; [intros Hd; rewrite (Rltb_ge _ _ Hd); split; reflexivity|].
  split; [destruct (Rltb d 0.25); reflexivity|].
  split; [intros Hd; rewrite (Rltb_lt _ _ Hd); split; reflexivity|].
  split; [intros Hd; rewrite (Rltb_ge _ _ Hd); split; reflexivity|].
  destruct (Rltb d 0.2); reflexivity.
Qed.

Lemma dist_pressUniforms : dist pressUniforms (vec2 0.5 0.5) = 0.
Proof.
  unfold dist, basePos, handPos2D, GLSL.distance2, pressUniforms; cbn.
  match goal with |- sqrt ?a = 0 => replace a with 0 by lra end.
  apply sqrt_0.
Qed.

(** C5 at the centre vertex under a fist pressing at the centre. *)
Lemma C5_witness :
  v_depth (Lines.vertex_main pressUniforms (vec2 0.5 0.5) 0) = - 0.15
  /\ v_depth (fst (Scatter.vertex_main pressUniforms 4 (vec2 0.5 0.5) 0)) = - 0.1.
Proof.
  destruct (C5_press_indents_depth_only pressUniforms 4 (vec2 0.5 0.5) 0 eq_refl)
    as [HL [_ [_ [HS _]]]].
  rewrite dist_pressUniforms in HL, HS.
  destruct HL as [_ HL]; [lra|]. destruct HS as [_ HS]; [lra|].
  rewrite HL, HS. split; lra.
Defined.

(* ------------------------------------------------------------------ *)
(** ** A session without a hand *)

Lemma mix_zero (a b : R) : GLSL.mix a b 0 = a.
Proof. unfold GLSL.mix; ring. Qed.

Lemma sampleMask_zero (m : Canvas) (uv : Vec2) :
  maskAllZero m -> sampleMask m uv = vec4 0 0 0 1.
Proof.
  intros Hz. unfold sampleMask, texel. rewrite !Hz.
  unfold GLSL.mix. f_equal; ring.
Qed.

Lemma initialMask_zero : maskAllZero initialMask.
Proof.
  intros i j. unfold maskValue, initialMask, Canvas2D.fillRectBlack; cbn [pixel].
  destruct (_ && _)%bool; reflexivity.
Qed.

Lemma resizeMask_zero (m : Canvas) (w h : Z) :
  maskAllZero m -> maskAllZero (resizeMask m w h).
Proof.
  intros Hz i j. unfold resizeMask.
  destruct (_ || _)%bool; [|apply Hz].
  unfold maskValue, Canvas2D.fillRectBlack; cbn [pixel].
  destruct (_ && _)%bool; reflexivity.
Qed.

Lemma renderMask_idle (h : HandState) (m : Canvas) (f : Frame) :
  gesture h <> 1%Z ->
  renderMask h m f = resizeMask m (clientWidth f) (clientHeight f).
Proof.
  intros Hg. unfold renderMask, paintMask.
  destruct (Z.eqb_spec (gesture h) 1); [contradiction | reflexivity].
Qed.

Section Absent.

Variable predict : HandState -> list (list Landmark) -> option HandState.

Hypothesis predict_lost : forall s, predict s [] = Some (lost s).

Lemma absent_session (events : list Event) :
  forall a, Forall handAbsent events ->
  gesture (hand a) = 0%Z -> maskAllZero (mask a) ->
  exists a', session predict a events = Some a'
             /\ gesture (hand a') = 0%Z /\ maskAllZero (mask a').
Proof.
  induction events as [|e rest IH]; intros a Hall Hg Hz.
  - exists a. repeat split; assumption.
  - inversion Hall as [|? ? He Hrest]; subst.
    cbn [session]. destruct e as [landmarks | f]; cbn [step handAbsent] in *.
    + subst landmarks. rewrite predict_lost. cbn [bind].
      apply IH; [assumption | reflexivity | exact Hz].
    + cbn [bind]. apply IH; cbn [hand mask]; [assumption | exact Hg |].
      rewrite renderMask_idle by lia. apply resizeMask_zero. exact Hz.
Qed.

End Absent.

(** The base colour in a frame whose mask is all zero after the frame's own
    mask update. *)
Lemma idle_baseColor (config : SimulationConfig) (startTime : R) (h : HandState)
    (m : Canvas) (f : Frame) (boost : R) (a_uv : Vec2) :
  gesture h = 0%Z -> maskAllZero m ->
  let U := snd (render config startTime h m f) in
  let tex := GLSL.rgb (source f (texCoord a_uv)) in
  let gray := GLSL.dot3 tex (vec3 0.299 0.587 0.114) in
  baseColor boost U a_uv =
    if Rltb (GLSL.length3 tex) 0.01 then GLSL.splat3 0.1 else GLSL.splat3 (gray * 0.8).
Proof.
  intros Hg Hz U tex gray.
  assert (Hm : maskAllZero (renderMask h m f)).
  { rewrite renderMask_idle by lia. apply resizeMask_zero. exact Hz. }
  unfold baseColor. subst U. cbn [render snd uniforms u_texture u_mask].
  rewrite (sampleMask_zero _ _ Hm). cbn [x4]. fold tex. fold gray.
  destruct (Rltb (GLSL.length3 tex) 0.01); [reflexivity|].
  unfold GLSL.mix3, GLSL.splat3; cbn [x3 y3 z3]. rewrite !mix_zero. reflexivity.
Qed.

(** The vertex stage in a frame whose gesture is NONE: no branch of the
    interaction logic is taken. *)
Lemma idle_vertex (U : Uniforms) (pSize : R) (a_uv : Vec2) (a_index : R) :
  u_gesture U = 0 ->
  let base := vec4 (x3 (basePos U a_uv)) (y3 (basePos U a_uv)) 0 1 in
  Lines.vertex_main U a_uv a_index
    = mkVsOut base (baseColor 1.5 U a_uv) 0 (isQuantum a_index)
  /\ fst (Scatter.vertex_main U pSize a_uv a_index)
     = mkVsOut base (baseColor 1.2 U a_uv) 0 (isQuantum a_index).
Proof.
  intros HgU base.
  unfold Lines.vertex_main, Scatter.vertex_main. rewrite HgU.
  rewrite (Rltb_ge 1.5 0), (Rltb_ge 3.5 0), (Rltb_ge 0.5 0) by lra.
  cbn [andb fst]. split; reflexivity.
Qed.

(** C8.  In a session in which no detection cycle finds a hand, whatever
    frames are rendered in between: the session runs, the gesture is NONE
    and the mask is all zero after every event; and in any frame rendered
    then, every vertex is emitted at its base aspect-corrected position with
    depth 0, its colour is the base colour (no tint), and that colour is
    grayscale (both variants). *)
Theorem C8_hand_absent_session (events : list Event) :
  Forall handAbsent events ->
  forall predict, In predict classifiers ->
  exists a,
    session predict initialApp events = Some a
    /\ gestureCode (gesture (hand a)) = Some NONE
    /\ maskAllZero (mask a)
    /\ forall config startTime f pSize a_uv a_index,
         let U := snd (render config startTime (hand a) (mask a) f) in
         let aspect := IZR (clientWidth f) / IZR (clientHeight f) in
         let base := vec4 ((vx a_uv - 0.5) * 2 * aspect) ((vy a_uv - 0.5) * 2) 0 1 in
         let lines := Lines.vertex_main U a_uv a_index in
         let scatter := fst (Scatter.vertex_main U pSize a_uv a_index) in
         (gl_Position lines = base /\ v_depth lines = 0
          /\ v_color lines = baseColor 1.5 U a_uv /\ grayscale (v_color lines))
         /\ (gl_Position scatter = base /\ v_depth scatter = 0
             /\ v_color scatter = baseColor 1.2 U a_uv /\ grayscale (v_color scatter)).
Proof.
  intros Hall predict Hin.
  assert (Hlost : forall s, predict s [] = Some (lost s)).
  { destruct Hin as [<- | [<- | []]]; reflexivity. }
  destruct (absent_session predict Hlost events initialApp Hall eq_refl initialMask_zero)
    as [a [Hs [Hg Hz]]].
  exists a. split; [exact Hs|]. split; [rewrite Hg; reflexivity|]. split; [exact Hz|].
  intros config startTime f pSize a_uv a_index U aspect base lines scatter.
  assert (HgU : u_gesture U = 0).
  { subst U. cbn [render snd uniforms u_gesture]. rewrite Hg. reflexivity. }
  destruct (idle_vertex U pSize a_uv a_index HgU) as [HL HS].
  assert (Hgray : forall boost, grayscale (baseColor boost U a_uv)).
  { intros boost. subst U. rewrite (idle_baseColor config startTime (hand a) (mask a) f boost a_uv Hg Hz).
    destruct (Rltb _ _); split; reflexivity. }
  subst lines scatter. rewrite HL, HS. cbn [gl_Position v_depth v_color].
  split; (split; [reflexivity | split; [reflexivity | split; [reflexivity | apply Hgray]]]).
Qed.

(** C8 on a session of a lost cycle, a frame and another lost cycle. *)
Lemma C8_witness :
  exists a,
    session Lines.predict initialApp
      [Detect []; Draw (mkFrame 16 800 600 (fun _ => vec4 1 0 0 1)); Detect []] = Some a
    /\ gestureCode (gesture (hand a)) = Some NONE
    /\ maskAllZero (mask a).
Proof.
  destruct (C8_hand_absent_session
              [Detect []; Draw (mkFrame 16 800 600 (fun _ => vec4 1 0 0 1)); Detect []])
    with (predict := Lines.predict) as [a [Hs [Hg [Hz _]]]].
  - repeat constructor.
  - left; reflexivity.
  - exists a. repeat split; assumption.
Defined.

(* ------------------------------------------------------------------ *)
(** ** Falloff of the three warps *)

Lemma clamp_inside (v lo hi : R) : lo <= v <= hi -> GLSL.clamp v lo hi = v.
Proof.
  intros [H1 H2]. unfold GLSL.clamp.
  rewrite Rmax_left by exact H1. apply Rmin_left. exact H2.
Qed.

Lemma influence_at_radius (r : R) : 0 < r -> influence r r = 0.
Proof.
  intros Hr. unfold influence, GLSL.smoothstep.
  replace ((r - r) / (0 - r)) with 0 by (field; lra).
  rewrite clamp_inside by lra. ring.
Qed.

Lemma ramp_at_radius (r : R) : 0 < r -> ramp r r = 0.
Proof. intros Hr. unfold ramp. field. lra. Qed.

Lemma dist_pinch_offCentre : dist pinchUniforms offCentre = 0.075.
Proof.
  unfold dist, basePos, handPos2D, GLSL.distance2, pinchUniforms, offCentre; cbn.
  match goal with |- sqrt ?a = _ => replace a with (0.075 * 0.075) by lra end.
  apply sqrt_square. lra.
Qed.

Lemma influence_03_0075 : influence 0.3 0.075 = 0.84375.
Proof.
  unfold influence, GLSL.smoothstep.
  replace ((0.075 - 0.3) / (0 - 0.3)) with 0.75 by lra.
  rewrite clamp_inside by lra. lra.
Qed.

(** The tension warp of LINES where it applies. *)
Lemma Lines_tension (U : Uniforms) (a_uv : Vec2) (a_index : R) :
  u_gesture U = 4 -> dist U a_uv < 0.3 ->
  let base := basePos U a_uv in
  let d := dist U a_uv in
  let strength := ramp 0.3 d in
  let xy := GLSL.mix2 (vec2 (x3 base) (y3 base)) (handPos2D U) (strength * 0.05) in
  let z := 0 + sin (d * 60 - u_time U * 12) * strength * 0.1 in
  Lines.vertex_main U a_uv a_index =
    mkVsOut (vec4 (vx xy) (vy xy) z 1)
            (GLSL.add3 (baseColor 1.5 U a_uv) (GLSL.scale3 (vec3 0.3 0 0.3) strength))
            z (isQuantum a_index).
Proof.
  intros Hg Hd base d strength xy z.
  unfold Lines.vertex_main. rewrite Hg.
  rewrite (Rltb_ge 4 2.5), (Rltb_ge 4 1.5), (Rltb_lt 3.5 4) by lra.
  rewrite !andb_false_r. cbn [andb].
  rewrite (Rltb_lt _ _ Hd). reflexivity.
Qed.

(** C3, as the spec words it, fails: under PINCH in the LINES variant the
    vertex at distance 0.075 is tinted by [vec3(0.3, 0, 0.3)] times 0.75
    (the linear ramp), not times [smoothstep(0.3, 0, 0.075) = 0.84375]. *)
Lemma C3_counterexample :
  u_gesture pinchUniforms = 4
  /\ dist pinchUniforms offCentre = 0.075
  /\ v_color (Lines.vertex_main pinchUniforms offCentre 0)
     = GLSL.add3 (baseColor 1.5 pinchUniforms offCentre)
                 (GLSL.scale3 (vec3 0.3 0 0.3) 0.75)
  /\ v_color (Lines.vertex_main pinchUniforms offCentre 0)
     <> GLSL.add3 (baseColor 1.5 pinchUniforms offCentre)
                  (GLSL.scale3 (vec3 0.3 0 0.3)
                               (influence 0.3 (dist pinchUniforms offCentre))).
Proof.
  assert (Hd : dist pinchUniforms offCentre < 0.3) by (rewrite dist_pinch_offCentre; lra).
  pose proof (Lines_tension pinchUniforms offCentre 0 eq_refl Hd) as H.
  cbv zeta in H. rewrite H. cbn [v_color].
  rewrite dist_pinch_offCentre, influence_03_0075.
  replace (ramp 0.3 0.075) with 0.75 by (unfold ramp; lra).
  split; [reflexivity|]. split; [reflexivity|]. split; [reflexivity|].
  intros Heq. apply (f_equal x3) in Heq. cbn [GLSL.add3 GLSL.scale3 x3] in Heq. lra.
Qed.

(** C3 (amended).  Only the pull-and-wave warp (OPEN in LINES, PINCH in
    SCATTER, on revealed vertices) takes its strength from
    [smoothstep(radius, 0, dist)]: lateral pull, velocity wave and tint are
    scaled by it, and in LINES the depth wave too.  The press warp is the
    linear ramp [(innerRadius - dist) / innerRadius] times a constant depth,
    and the tension/ripple warp is scaled by the linear ramp
    [(radius - dist) / radius].  Both falloffs are 0 at [dist = radius]. *)
Theorem C3_falloff_per_warp (U : Uniforms) (pSize : R) (a_uv : Vec2) (a_index : R) :
  let d := dist U a_uv in
  let maskVal := x4 (u_mask U (texCoord a_uv)) in
  let lines := Lines.vertex_main U a_uv a_index in
  let scatter := fst (Scatter.vertex_main U pSize a_uv a_index) in
  (u_gesture U = 2 -> 0.1 < maskVal -> d < 0.65 ->
     let k := influence 0.65 d in
     let xy := pullAndWave U a_uv 0.7 0.3 12 k in
     x4 (gl_Position lines) = vx xy /\ y4 (gl_Position lines) = vy xy
     /\ v_depth lines = sin (d * 12 - u_time U * 6) * k * 1.2
     /\ v_color lines = GLSL.add3 (baseColor 1.5 U a_uv) (GLSL.scale3 (vec3 0 0.4 0.6) k))
  /\ (u_gesture U = 4 -> 0.1 < maskVal -> d < 0.5 ->
     let k := influence 0.5 d in
     let xy := pullAndWave U a_uv 0.6 0.4 3 k in
     x4 (gl_Position scatter) = vx xy /\ y4 (gl_Position scatter) = vy xy
     /\ v_color scatter
        = GLSL.add3 (baseColor 1.2 U a_uv) (GLSL.scale3 (vec3 0.2 0.1 0.3) k))
  /\ (u_gesture U = 1 -> d < 0.25 -> v_depth lines = - (0.15 * ramp 0.25 d))
  /\ (u_gesture U = 1 -> d < 0.2 -> v_depth scatter = - (0.1 * ramp 0.2 d))
  /\ (u_gesture U = 4 -> d < 0.3 ->
     let k := ramp 0.3 d in
     let xy := GLSL.mix2 (vec2 (x3 (basePos U a_uv)) (y3 (basePos U a_uv)))
                         (handPos2D U) (k * 0.05) in
     x4 (gl_Position lines) = vx xy /\ y4 (gl_Position lines) = vy xy
     /\ v_depth lines = sin (d * 60 - u_time U * 12) * k * 0.1
     /\ v_color lines = GLSL.add3 (baseColor 1.5 U a_uv) (GLSL.scale3 (vec3 0.3 0 0.3) k))
  /\ (u_gesture U = 2 -> d < 0.4 ->
     v_depth scatter = sin (d * 40 - u_time U * 8) * ramp 0.4 d * 0.15)
  /\ (forall r, 0 < r -> influence r r = 0 /\ ramp r r = 0).
Proof.
  intros d maskVal lines scatter.
  split; [|split; [|split; [|split; [|split; [|split]]]]].
  - intros Hg Hm Hd k xy. subst lines. unfold Lines.vertex_main.
    fold maskVal. fold d. rewrite Hg.
    rewrite (Rltb_lt 1.5 2), (Rltb_lt 2 2.5) by lra.
    rewrite (Rltb_lt _ _ Hm), (Rltb_lt _ _ Hd). cbn [andb].
    cbn [gl_Position v_depth v_color x4 y4 basePos z3].
    repeat split. subst k; unfold influence; ring.
  - intros Hg Hm Hd k xy. subst scatter. unfold Scatter.vertex_main.
    fold maskVal. fold d. rewrite Hg.
    rewrite (Rltb_lt 3.5 4) by lra.
    rewrite (Rltb_lt _ _ Hm), (Rltb_lt _ _ Hd). cbn [andb fst].
    cbn [gl_Position v_depth v_color x4 y4].
    repeat split.
  - intros Hg Hd. subst lines. unfold Lines.vertex_main. fold d. rewrite Hg.
    rewrite (Rltb_ge 1.5 1), (Rltb_lt 0.5 1), (Rltb_lt 1 1.5) by lra.
    rewrite (Rltb_lt _ _ Hd). cbn [andb v_depth z3 basePos]. unfold ramp. lra.
  - intros Hg Hd. subst scatter. unfold Scatter.vertex_main. fold d. rewrite Hg.
    rewrite (Rltb_ge 3.5 1), (Rltb_lt 0.5 1), (Rltb_lt 1 1.5) by lra.
    rewrite (Rltb_lt _ _ Hd). cbn [andb fst v_depth z3 basePos]. unfold ramp. lra.
  - intros Hg Hd k xy. subst lines.
    pose proof (Lines_tension U a_uv a_index Hg Hd) as H. cbv zeta in H.
    rewrite H. cbn [gl_Position v_depth v_color x4 y4].
    repeat split. subst k d; ring.
  - intros Hg Hd. subst scatter. unfold Scatter.vertex_main. fold d. rewrite Hg.
    rewrite (Rltb_ge 3.5 2), (Rltb_ge 2 1.5), (Rltb_lt 1.5 2), (Rltb_lt 2 2.5) by lra.
    rewrite !andb_false_r.
    rewrite (Rltb_lt _ _ Hd). cbn [andb fst v_depth z3 basePos]. unfold ramp. lra.
  - intros r Hr. split; [apply influence_at_radius | apply ramp_at_radius]; exact Hr.
Qed.

(** C3 (amended) at the PINCH frame of the counterexample: the tint of the
    tension warp is 0.75 of [vec3(0.3, 0, 0.3)]. *)
Lemma C3_witness :
  v_color (Lines.vertex_main pinchUniforms offCentre 0)
  = GLSL.add3 (baseColor 1.5 pinchUniforms offCentre)
              (GLSL.scale3 (vec3 0.3 0 0.3) (ramp 0.3 0.075)).
Proof.
  destruct (C3_falloff_per_warp pinchUniforms 4 offCentre 0)
    as [_ [_ [_ [_ [H _]]]]].
  destruct H as [_ [_ [_ H]]]; [reflexivity | rewrite dist_pinch_offCentre; lra |].
  rewrite H, dist_pinch_offCentre. reflexivity.
Defined.

(* ------------------------------------------------------------------ *)
(** ** The reveal mask *)

Lemma div_ge (a b c : R) : 0 < c -> a * c <= b -> a <= b / c.
Proof.
  intros Hc H. apply Rmult_le_reg_r with c; [exact Hc|].
  unfold Rdiv. rewrite Rmult_assoc, Rinv_l by lra. lra.
Qed.

Lemma div_le (a b c : R) : 0 < c -> b <= a * c -> b / c <= a.
Proof.
  intros Hc H. apply Rmult_le_reg_r with c; [exact Hc|].
  unfold Rdiv. rewrite Rmult_assoc, Rinv_l by lra. lra.
Qed.

(** White drawn with alpha [a] through [lighten] raises the red channel of
    a well-formed pixel and keeps it well-formed. *)
Lemma composite_lighten_white (b : Pixel) (a : R) :
  wfPixel b -> 0 < a <= 1 ->
  let p := Canvas2D.composite Canvas2D.lighten b (mkPixel 1 a) in
  red b <= red p /\ wfPixel p.
Proof.
  intros [[Hr0 Hr1] [Ha0 Ha1]] [Hpos Hle1] p.
  subst p. unfold Canvas2D.composite, Canvas2D.lighten, wfPixel. cbn [red alpha].
  rewrite Rmax_right by exact Hr1.
  set (ao := a + alpha b * (1 - a)).
  assert (Hao : 0 < ao) by (unfold ao; nra).
  assert (Hao1 : ao <= 1) by (unfold ao; nra).
  destruct (Req_dec_T ao 0) as [Habs | _]; [lra|].
  assert (Hq : 0 <= (1 - a) * alpha b) by (apply Rmult_le_pos; lra).
  assert (Hq1 : 0 <= (1 - a) * alpha b * (1 - red b)) by (apply Rmult_le_pos; lra).
  assert (Hq2 : 0 <= (1 - a) * alpha b * red b) by (apply Rmult_le_pos; lra).
  assert (Hq3 : 0 <= a * (1 - red b)) by (apply Rmult_le_pos; lra).
  assert (Hup : red b <= (a * (1 - alpha b) * 1 + a * alpha b * 1
                          + (1 - a) * alpha b * red b) / ao).
  { apply div_ge; [exact Hao|]. unfold ao. lra. }
  assert (Hone : (a * (1 - alpha b) * 1 + a * alpha b * 1
                  + (1 - a) * alpha b * red b) / ao <= 1).
  { apply div_le; [exact Hao|]. unfold ao. lra. }
  repeat split; lra.
Qed.

Lemma gradient_inside (d : R) :
  0 <= d < 80 ->
  Canvas2D.radialGradientWhite 80 0.2 0 d = mkPixel 1 (0.2 * (1 - d / 80)).
Proof.
  intros Hd. unfold Canvas2D.radialGradientWhite.
  rewrite clamp_inside by lra. unfold GLSL.mix. f_equal; lra.
Qed.

Lemma distance2_nonneg (a b : Vec2) : 0 <= GLSL.distance2 a b.
Proof. apply sqrt_pos. Qed.

Lemma paintMask_size (h : HandState) (m : Canvas) (w ht : Z) :
  width (paintMask h m w ht) = width m /\ height (paintMask h m w ht) = height m.
Proof. unfold paintMask. destruct (gesture h =? 1)%Z; split; reflexivity. Qed.

Lemma paintMask_raises (h : HandState) (m : Canvas) (w ht : Z) :
  wfMask m ->
  forall i j, maskValue m i j <= maskValue (paintMask h m w ht) i j
              /\ wfPixel (pixel (paintMask h m w ht) i j).
Proof.
  intros Hwf i j. unfold paintMask, maskValue.
  destruct (gesture h =? 1)%Z; [|split; [lra | apply Hwf]].
  unfold Canvas2D.fillArcLighten; cbn [pixel].
  set (d := GLSL.distance2 _ _).
  destruct (Canvas2D.inside m i j); cbn [andb]; [|split; [lra | apply Hwf]].
  destruct (Rltb d 80) eqn:Hd; [|split; [lra | apply Hwf]].
  apply Rltb_true in Hd.
  assert (Hd0 : 0 <= d) by apply distance2_nonneg.
  rewrite gradient_inside by lra.
  apply composite_lighten_white; [apply Hwf | lra].
Qed.

Lemma resizeMask_same (m : Canvas) :
  resizeMask m (width m) (height m) = m.
Proof. unfold resizeMask. rewrite !Z.eqb_refl. reflexivity. Qed.

Lemma resizeMask_changed (m : Canvas) (w h : Z) :
  width m <> w \/ height m <> h ->
  resizeMask m w h = Canvas2D.fillRectBlack (Canvas2D.setSize m w h) 0 0 w h.
Proof.
  intros H. unfold resizeMask.
  destruct (Z.eqb_spec (width m) w), (Z.eqb_spec (height m) h);
    cbn [negb orb]; try reflexivity.
  destruct H; contradiction.
Qed.

Lemma fillRectBlack_fresh (m : Canvas) (w h : Z) (i j : Z) :
  let m' := Canvas2D.fillRectBlack (Canvas2D.setSize m w h) 0 0 w h in
  red (pixel m' i j) = 0 /\ wfPixel (pixel m' i j).
Proof.
  cbn. unfold wfPixel.
  destruct (_ && _)%bool; cbn; repeat split; lra.
Qed.

Lemma resizeMask_wf (m : Canvas) (w h : Z) : wfMask m -> wfMask (resizeMask m w h).
Proof.
  intros Hwf i j. unfold resizeMask.
  destruct (_ || _)%bool; [|apply Hwf].
  apply fillRectBlack_fresh.
Qed.

Lemma renderMask_wf (h : HandState) (m : Canvas) (f : Frame) :
  wfMask m -> wfMask (renderMask h m f).
Proof.
  intros Hwf i j. unfold renderMask.
  apply paintMask_raises. apply resizeMask_wf. exact Hwf.
Qed.

Lemma initialMask_wf : wfMask initialMask.
Proof.
  intros i j. unfold initialMask, Canvas2D.fillRectBlack, wfPixel; cbn [pixel].
  destruct (_ && _)%bool; cbn; repeat split; lra.
Qed.

Lemma frames_wf (fs : list (HandState * Frame)) :
  forall m, wfMask m -> wfMask (frames m fs).
Proof.
  induction fs as [|[h f] rest IH]; intros m Hwf; [exact Hwf|].
  cbn [frames]. apply IH. apply renderMask_wf. exact Hwf.
Qed.

Lemma renderMask_sameSize (h : HandState) (m : Canvas) (f : Frame) :
  sameSize m (h, f) ->
  renderMask h m f = paintMask h m (width m) (height m).
Proof.
  intros [Hw Hh]. cbn [snd] in Hw, Hh. unfold renderMask.
  rewrite Hw, Hh, resizeMask_same. reflexivity.
Qed.

Lemma frames_monotone (fs : list (HandState * Frame)) :
  forall m, wfMask m -> Forall (sameSize m) fs ->
  forall i j, maskValue m i j <= maskValue (frames m fs) i j.
Proof.
  induction fs as [|[h f] rest IH]; intros m Hwf Hall i j; [cbn; lra|].
  inversion Hall as [|? ? Hhd Htl]; subst.
  cbn [frames]. rewrite (renderMask_sameSize h m f Hhd).
  destruct (paintMask_size h m (width m) (height m)) as [Hw Hh].
  apply Rle_trans with (maskValue (paintMask h m (width m) (height m)) i j).
  - apply paintMask_raises. exact Hwf.
  - apply IH.
    + intros i' j'. apply paintMask_raises. exact Hwf.
    + eapply Forall_impl; [|exact Htl].
      intros hf [H1 H2]. unfold sameSize. rewrite Hw, Hh. split; assumption.
Qed.

Lemma composite_lighten_white_strict (b : Pixel) (a : R) :
  wfPixel b -> 0 < a <= 1 -> red b < 1 ->
  red b < red (Canvas2D.composite Canvas2D.lighten b (mkPixel 1 a)).
Proof.
  intros [[Hr0 Hr1] [Ha0 Ha1]] [Hpos Hle1] Hlt.
  unfold Canvas2D.composite, Canvas2D.lighten. cbn [red alpha].
  rewrite Rmax_right by exact Hr1.
  set (ao := a + alpha b * (1 - a)).
  assert (Hao : 0 < ao) by (unfold ao; nra).
  destruct (Req_dec_T ao 0) as [Habs | _]; [lra|].
  assert (Hq : 0 < a * (1 - red b)) by (apply Rmult_lt_0_compat; lra).
  apply Rmult_lt_reg_r with ao; [exact Hao|].
  unfold Rdiv. rewrite Rmult_assoc, Rinv_l by lra. unfold ao. lra.
Qed.

(** The stroke is not the identity: one FIST frame over the opaque black
    pixel (50, 50) of the initial mask raises it above 0. *)
Lemma stroke_raises_pixel :
  maskValue initialMask 50 50 = 0
  /\ 0 < maskValue (renderMask fistAt50 initialMask defaultSizeFrame) 50 50.
Proof.
  split; [reflexivity|].
  unfold renderMask. change (clientWidth defaultSizeFrame) with (width initialMask).
  change (clientHeight defaultSizeFrame) with (height initialMask).
  rewrite resizeMask_same.
  unfold paintMask, maskValue. change (gesture fistAt50 =? 1)%Z with true.
  unfold Canvas2D.fillArcLighten; cbn [pixel].
  change (Canvas2D.inside initialMask 50 50) with true. cbn [andb].
  set (d := GLSL.distance2 _ _).
  assert (Hd0 : 0 <= d) by apply distance2_nonneg.
  assert (Hd : d < 80).
  { unfold d, GLSL.distance2, fistAt50; cbn [vx vy handPos width height initialMask
      Canvas2D.fillRectBlack Canvas2D.createElement].
    rewrite <- (sqrt_square 80) by lra. apply sqrt_lt_1_alt. split; [nra | lra]. }
  rewrite (Rltb_lt _ _ Hd). rewrite gradient_inside by lra.
  change (pixel initialMask 50 50) with Canvas2D.black.
  apply (composite_lighten_white_strict Canvas2D.black).
  - unfold wfPixel; cbn; lra.
  - lra.
  - cbn; lra.
Qed.

(** C1.  At any point [m] of a session's mask: over every further run of
    frames that keep the mask's size (FIST strokes or not) no pixel value
    goes down; every pixel value is between 0 and 1; and a frame whose
    client size differs from the mask's size replaces the mask by one of the
    new size whose every pixel is 0 before that frame's own stroke. *)
Theorem C1_mask_monotone_bounded_reset
    (pre strokes : list (HandState * Frame)) (i j : Z) :
  let m := frames initialMask pre in
  (Forall (sameSize m) strokes -> maskValue m i j <= maskValue (frames m strokes) i j)
  /\ 0 <= maskValue m i j <= 1
  /\ (forall w h, width m <> w \/ height m <> h ->
        let m' := resizeMask m w h in
        width m' = w /\ height m' = h /\ maskAllZero m').
Proof.
  intros m.
  assert (Hwf : wfMask m) by (apply frames_wf, initialMask_wf).
  split; [intros Hall; apply frames_monotone; assumption|].
  split; [apply Hwf|].
  intros w h Hne m'. subst m'. rewrite (resizeMask_changed m w h Hne).
  split; [reflexivity|]. split; [reflexivity|].
  intros i' j'. apply fillRectBlack_fresh.
Qed.

(** C1 on one FIST frame at the size of the initial mask. *)
Lemma C1_witness :
  maskValue initialMask 150 75
  <= maskValue (frames initialMask [(fistAtCentre, defaultSizeFrame)]) 150 75.
Proof.
  destruct (C1_mask_monotone_bounded_reset [] [(fistAtCentre, defaultSizeFrame)] 150 75)
    as [H _].
  apply H. constructor; [split; reflexivity | constructor].
Defined.

(* ------------------------------------------------------------------ *)
(** ** The mesh builder *)

Lemma nth_flat_map_block {A B : Type} (f : A -> list B) (k : nat) (d : B) (a0 : A) :
  (forall a, length (f a) = k) ->
  forall (l : list A) (i r : nat),
    (i < length l)%nat -> (r < k)%nat ->
    nth (i * k + r) (flat_map f l) d = nth r (f (nth i l a0)) d.
Proof.
  intros Hlen l. induction l as [|a l IH]; intros i r Hi Hr; [cbn in Hi; lia|].
  cbn [flat_map]. destruct i as [|i].
  - cbn [Nat.mul Nat.add nth]. apply app_nth1. rewrite Hlen. exact Hr.
  - rewrite app_nth2 by (rewrite Hlen; cbn; lia).
    rewrite Hlen. replace (S i * k + r - k)%nat with (i * k + r)%nat by (cbn; lia).
    cbn [nth]. apply IH; [cbn in Hi; lia | exact Hr].
Qed.

Lemma range_length (n : Z) : length (range n) = Z.to_nat n.
Proof. unfold range. rewrite length_map, length_seq. reflexivity. Qed.

Lemma range_nth (n : Z) (i : nat) :
  (i < Z.to_nat n)%nat -> nth i (range n) 0%Z = Z.of_nat i.
Proof.
  intros Hi. unfold range.
  change 0%Z with (Z.of_nat 0). rewrite map_nth. rewrite seq_nth by exact Hi.
  reflexivity.
Qed.

(** The [a_uv] attribute of the vertex written in iteration [(i, j)]. *)
Lemma uvAt_grid (count w h : Z) (i j : Z) :
  let m := initWebGL count w h in
  (0 <= i < cols m)%Z -> (0 <= j < rows m)%Z ->
  uvAt m (vertexId m i j) = vec2 (IZR i / (IZR (cols m) - 1)) (IZR j / (IZR (rows m) - 1)).
Proof.
  intros m Hi Hj. unfold uvAt, vertexId.
  set (R := rows m) in *. set (C := cols m) in *.
  set (g := fun i0 : Z => flat_map (fun j0 : Z => [IZR i0 / (IZR C - 1); IZR j0 / (IZR R - 1)])
                                   (range R)).
  assert (Huv : uvData m = flat_map g (range C)) by reflexivity.
  assert (Hg : forall a, length (g a) = (2 * Z.to_nat R)%nat).
  { intros a. unfold g. rewrite (flat_map_constant_length (c := 2%nat)) by reflexivity.
    rewrite range_length. lia. }
  assert (Hinner : forall a c, (c < 2)%nat ->
            nth (Z.to_nat j * 2 + c) (g a) 0
            = nth c [IZR a / (IZR C - 1); IZR j / (IZR R - 1)] 0).
  { intros a c Hc. unfold g.
    rewrite (nth_flat_map_block _ 2%nat 0 0%Z) by
      (try rewrite range_length; try reflexivity; lia).
    rewrite range_nth by lia. rewrite Z2Nat.id by lia. reflexivity. }
  rewrite Huv.
  replace (2 * Z.to_nat (i * R + j))%nat
    with (Z.to_nat i * (2 * Z.to_nat R) + (Z.to_nat j * 2 + 0))%nat by nia.
  replace (Z.to_nat i * (2 * Z.to_nat R) + (Z.to_nat j * 2 + 0) + 1)%nat
    with (Z.to_nat i * (2 * Z.to_nat R) + (Z.to_nat j * 2 + 1))%nat by lia.
  rewrite !(nth_flat_map_block g (2 * Z.to_nat R)%nat 0 0%Z Hg)
    by (try rewrite range_length; lia).
  rewrite range_nth by lia. rewrite Z2Nat.id by lia.
  rewrite !Hinner by lia. reflexivity.
Qed.

Lemma grid_rows_cols (count w h : Z) :
  let m := initWebGL count w h in
  let aspect := IZR w / IZR h in
  rows m = Math.ceil (sqrt (IZR count / aspect))
  /\ cols m = Math.ceil (IZR count / IZR (rows m)).
Proof. split; reflexivity. Qed.

(** For a positive aspect ratio the grid has two rows and two columns
    exactly when the ratio lies in [aspectInRange]. *)
Lemma grid_nondegenerate_iff (count w h : Z) :
  (2 <= count)%Z -> 0 < IZR w / IZR h ->
  let m := initWebGL count w h in
  ((2 <= rows m)%Z /\ (2 <= cols m)%Z) <-> aspectInRange count (IZR w / IZR h).
Proof.
  intros Hc Ha m.
  destruct (grid_rows_cols count w h) as [Hrows Hcols].
  fold m in Hrows, Hcols.
  set (a := IZR w / IZR h) in *.
  assert (HcR : 2 <= IZR count) by (apply IZR_le in Hc; exact Hc).
  set (x := IZR count / a) in *.
  assert (Hx0 : 0 < x) by (unfold x; apply Rdiv_lt_0_compat; lra).
  assert (Hxa : x * a = IZR count) by (unfold x; field; lra).
  destruct (ceil_spec (sqrt x)) as [Hr1 Hr2]. rewrite <- Hrows in Hr1, Hr2.
  assert (Hsq : sqrt x * sqrt x = x) by (apply sqrt_sqrt; lra).
  assert (Hs0 : 0 <= sqrt x) by apply sqrt_pos.
  unfold aspectInRange. split.
  - intros [H2r H2c].
    assert (HrR : 2 <= IZR (rows m)) by (apply IZR_le in H2r; exact H2r).
    destruct (ceil_spec (IZR count / IZR (rows m))) as [Hc1 Hc2].
    rewrite <- Hcols in Hc1, Hc2.
    assert (HcC : 2 <= IZR (cols m)) by (apply IZR_le in H2c; exact H2c).
    assert (Hq : 1 < IZR count / IZR (rows m)) by lra.
    assert (Hlt : IZR (rows m) < IZR count).
    { apply Rmult_lt_compat_r with (r := IZR (rows m)) in Hq; [|lra].
      unfold Rdiv in Hq. rewrite Rmult_assoc, Rinv_l in Hq by lra. lra. }
    apply lt_IZR in Hlt.
    assert (Hle : IZR (rows m) <= IZR count - 1).
    { rewrite <- minus_IZR. apply IZR_le. lia. }
    assert (Hsx : 1 < sqrt x) by lra.
    split.
    + assert (Hx2 : x <= (IZR count - 1) * (IZR count - 1)) by nra.
      rewrite <- Hxa at 1. nra.
    + assert (Hx1 : 1 < x) by nra. nra.
  - intros [Hlo Hhi].
    assert (Hx1 : 1 < x) by nra.
    assert (Hsx : 1 < sqrt x).
    { rewrite <- sqrt_1. apply sqrt_lt_1_alt. lra. }
    assert (H2r : (2 <= rows m)%Z).
    { rewrite Hrows. apply ceil_ge. lra. }
    assert (Hx2 : x <= (IZR count - 1) * (IZR count - 1)).
    { apply Rmult_le_reg_r with a; [exact Ha|]. lra. }
    assert (Hsle : sqrt x <= IZR count - 1).
    { rewrite <- (sqrt_square (IZR count - 1)) by lra.
      apply sqrt_le_1_alt. exact Hx2. }
    assert (Hrle : (rows m <= count - 1)%Z).
    { rewrite Hrows. apply ceil_le. rewrite minus_IZR. exact Hsle. }
    split; [exact H2r|].
    rewrite Hcols. apply ceil_ge.
    assert (HrR : 2 <= IZR (rows m)) by (apply IZR_le in H2r; exact H2r).
    assert (HrC : IZR (rows m) <= IZR count - 1).
    { rewrite <- minus_IZR. apply IZR_le. exact Hrle. }
    apply Rmult_lt_reg_r with (IZR (rows m)); [lra|].
    unfold Rdiv. rewrite Rmult_assoc, Rinv_l by lra. lra.
Qed.

(** C2 (amended).  For a target count of at least 2 (so for every
    configured count in 2,000..50,000) on a canvas of positive width and
    height: the grid has [rows >= 2] and [cols >= 2] exactly when the aspect
    ratio [width / height] satisfies
    [count / (count - 1)^2 <= aspect < count]; and then the two divisors
    [cols - 1] and [rows - 1] are not zero and the vertices written at the
    four grid corners have the UVs (0,0), (0,1), (1,0) and (1,1) exactly,
    the first and the last vertex of the buffer among them. *)
Theorem C2_grid_nondegenerate_in_range (count w h : Z) :
  (2000 <= count <= 50000)%Z -> (0 < w)%Z -> (0 < h)%Z ->
  let m := initWebGL count w h in
  let aspect := IZR w / IZR h in
  (((2 <= rows m)%Z /\ (2 <= cols m)%Z) <-> aspectInRange count aspect)
  /\ (aspectInRange count aspect ->
        IZR (cols m) - 1 <> 0 /\ IZR (rows m) - 1 <> 0
        /\ uvAt m (vertexId m 0 0) = vec2 0 0
        /\ uvAt m (vertexId m 0 (rows m - 1)) = vec2 0 1
        /\ uvAt m (vertexId m (cols m - 1) 0) = vec2 1 0
        /\ uvAt m (vertexId m (cols m - 1) (rows m - 1)) = vec2 1 1
        /\ vertexId m 0 0 = 0%nat
        /\ vertexId m (cols m - 1) (rows m - 1) = (Z.to_nat (rows m * cols m) - 1)%nat).
Proof.
  intros Hc Hw Hh m aspect.
  assert (Ha : 0 < IZR w / IZR h).
  { apply Rdiv_lt_0_compat; apply IZR_lt; assumption. }
  assert (Hiff := grid_nondegenerate_iff count w h ltac:(lia) Ha). fold m in Hiff.
  split; [exact Hiff|].
  intros Hin. apply Hiff in Hin. destruct Hin as [H2r H2c].
  assert (HrR : 2 <= IZR (rows m)) by (apply IZR_le in H2r; exact H2r).
  assert (HcR : 2 <= IZR (cols m)) by (apply IZR_le in H2c; exact H2c).
  split; [lra|]. split; [lra|].
  unfold m. rewrite !uvAt_grid by (fold m; lia). fold m.
  rewrite !minus_IZR.
  repeat split; try (f_equal; field; lra).
  unfold vertexId. nia.
Qed.

(** C2, as the spec words it, fails: a count of 2,000 on a canvas of 4000 by
    2 pixels (aspect ratio 2000) gives a grid of one row. *)
Lemma C2_counterexample :
  (2000 <= 2000 <= 50000)%Z
  /\ rows (initWebGL 2000 4000 2) = 1%Z
  /\ ~ (2 <= rows (initWebGL 2000 4000 2))%Z.
Proof.
  assert (H : rows (initWebGL 2000 4000 2) = 1%Z).
  { cbn [initWebGL rows].
    replace (2000 / (4000 / 2)) with 1 by lra.
    rewrite sqrt_1. apply ceil_IZR. }
  split; [lia|]. split; [exact H|]. rewrite H. lia.
Qed.

(** C2 (amended) at the default configuration: 15,000 vertices on the
    default 300 by 150 canvas. *)
Lemma C2_witness :
  (2 <= rows (initWebGL 15000 300 150))%Z /\ (2 <= cols (initWebGL 15000 300 150))%Z
  /\ uvAt (initWebGL 15000 300 150) 0 = vec2 0 0.
Proof.
  destruct (C2_grid_nondegenerate_in_range 15000 300 150) as [Hiff Hcorners];
    [lia | lia | lia |].
  assert (Hin : aspectInRange 15000 (300 / 150)).
  { unfold aspectInRange. split; lra. }
  destruct (proj2 Hiff Hin) as [Hr Hc].
  destruct (Hcorners Hin) as [_ [_ [H00 [_ [_ [_ [Hid _]]]]]]].
  rewrite Hid in H00. repeat split; assumption.
Defined.

(* ------------------------------------------------------------------ *)
(** ** The animation clock *)

(** C7 does not hold of the code: [render] computes [u_time] as
    [(now - startTime) / 1000] whatever [config.speed] is.  With the slider
    at 2.0, one second after the start the vertex stage receives the time 1,
    not 2; with the slider at 0.0 it receives 1, not 0. *)
Theorem C7_time_ignores_speed :
  (forall config startTime h m f v,
     frameTime (withSpeed config v) startTime h m f = (now f - startTime) / 1000)
  /\ speed (withSpeed defaultConfig 2) = 2
  /\ frameTime (withSpeed defaultConfig 2) 0 initialHand initialMask frameAtOneSecond = 1
  /\ frameTime (withSpeed defaultConfig 2) 0 initialHand initialMask frameAtOneSecond
     <> speed (withSpeed defaultConfig 2) * ((now frameAtOneSecond - 0) / 1000)
  /\ frameTime (withSpeed defaultConfig 0) 0 initialHand initialMask frameAtOneSecond
     <> speed (withSpeed defaultConfig 0) * ((now frameAtOneSecond - 0) / 1000).
Proof.
  split; [intros; reflexivity|].
  split; [reflexivity|].
  unfold frameTime; cbn [render snd uniforms u_time now frameAtOneSecond speed withSpeed].
  split; [lra|]. split; lra.
Qed.

(* ================================================================== *)
(** * Further properties of the code *)

(* ------------------------------------------------------------------ *)
(** ** The classifier on short and on full hands *)

Lemma at_short (lm : list Landmark) (i : nat) :
  (length lm <= i)%nat -> at_ lm i = None.
Proof. intros H. unfold at_. apply nth_error_None. exact H. Qed.

(** X1.  A detection cycle with a hand completes exactly when the hand has
    the landmarks the variant reads: at least 17 in LINES (index 16 is the
    ring tip), at least 13 in SCATTER (index 12 is the middle tip).  With
    fewer the cycle throws. *)
Theorem X1_predict_needs_landmarks (s : HandState) (lm : list Landmark)
    (rest : list (list Landmark)) :
  ((exists s', Lines.predict s (lm :: rest) = Some s') <-> (17 <= length lm)%nat)
  /\ ((exists s', Scatter.predict s (lm :: rest) = Some s') <-> (13 <= length lm)%nat).
Proof.
  split; split.
  - intros [s' H]. destruct (le_lt_dec 17 (length lm)) as [Hle | Hlt]; [exact Hle|].
    exfalso. unfold Lines.predict, Lines.classify in H.
    rewrite (at_short lm 16) in H by lia.
    destruct (at_ lm 9), (at_ lm 0), (at_ lm 4), (at_ lm 8), (at_ lm 12);
      cbn in H; discriminate H.
  - intros Hle. unfold Lines.predict, Lines.classify.
    rewrite !at_lmk by lia. cbn [bind]. eexists. reflexivity.
  - intros [s' H]. destruct (le_lt_dec 13 (length lm)) as [Hle | Hlt]; [exact Hle|].
    exfalso. unfold Scatter.predict, Scatter.classify in H.
    rewrite (at_short lm 12) in H by lia.
    destruct (at_ lm 9), (at_ lm 0), (at_ lm 4), (at_ lm 8);
      cbn in H; discriminate H.
  - intros Hle. unfold Scatter.predict, Scatter.classify.
    rewrite !at_lmk by lia. cbn [bind]. eexists. reflexivity.
Qed.

(** X1 at a full hand and at a hand cut off after the middle tip. *)
Lemma X1_witness :
  (exists s', Lines.predict initialHand [openHand] = Some s')
  /\ ~ (exists s', Lines.predict initialHand [firstn 13 openHand] = Some s')
  /\ (exists s', Scatter.predict initialHand [firstn 13 openHand] = Some s').
Proof.
  split; [|split].
  - apply (proj1 (X1_predict_needs_landmarks initialHand openHand [])).
    cbn. lia.
  - intros H.
    apply (proj1 (X1_predict_needs_landmarks initialHand (firstn 13 openHand) [])) in H.
    cbn in H. lia.
  - apply (proj2 (X1_predict_needs_landmarks initialHand (firstn 13 openHand) [])).
    cbn. lia.
Defined.

(** X2.  For a full hand of 21 landmarks the stored gesture is never NONE;
    it is OPEN exactly when the thumb tip is at least 0.05 from the index
    tip and the variant's fist test fails, and in SCATTER it is FIST exactly
    when the fist test holds without a pinch. *)
Theorem X2_detected_hand_table (s : HandState) (lm : list Landmark)
    (rest : list (list Landmark)) :
  length lm = 21%nat ->
  let pinch := pinchDist (lmk lm 4) (lmk lm 8) in
  let fistL := Lines.isFist (lmk lm 0) (lmk lm 12) (lmk lm 9) (lmk lm 16) (lmk lm 13) in
  let fistS := Scatter.isFist (lmk lm 0) (lmk lm 12) (lmk lm 9) in
  (exists s1, Lines.predict s (lm :: rest) = Some s1
     /\ gesture s1 <> 0%Z
     /\ (gesture s1 = 2%Z <-> 0.05 <= pinch /\ fistL = false))
  /\ (exists s2, Scatter.predict s (lm :: rest) = Some s2
        /\ gesture s2 <> 0%Z
        /\ (gesture s2 = 2%Z <-> 0.05 <= pinch /\ fistS = false)
        /\ (gesture s2 = 1%Z <-> 0.05 <= pinch /\ fistS = true)).
Proof.
  intros H21 pinch fistL fistS. split.
  - destruct (Lines_predict_21 s lm rest H21) as [g [Hg Hp]].
    rewrite Hp. eexists; split; [reflexivity|]. cbn [gesture track].
    rewrite (Lines_classify_21 lm H21) in Hg. fold fistL pinch in Hg.
    destruct fistL; [|destruct (Rltb pinch 0.05) eqn:Hpi];
      injection Hg as <-.
    + split; [lia|]. split; [lia | intros [_ Habs]; discriminate Habs].
    + apply Rltb_true in Hpi. split; [lia|]. split; [lia | intros [Habs _]; lra].
    + apply Rltb_false in Hpi. split; [lia|]. split; [intros _; split; [exact Hpi | reflexivity] | reflexivity].
  - destruct (Scatter_predict_21 s lm rest H21) as [g [Hg Hp]].
    rewrite Hp. eexists; split; [reflexivity|]. cbn [gesture track].
    rewrite (Scatter_classify_21 lm H21) in Hg. fold fistS pinch in Hg.
    destruct (Rltb pinch 0.05) eqn:Hpi; [|destruct fistS]; injection Hg as <-.
    + apply Rltb_true in Hpi. split; [lia|].
      split; (split; [lia | intros [Habs _]; lra]).
    + apply Rltb_false in Hpi. split; [lia|]. split.
      * split; [lia | intros [_ Habs]; discriminate Habs].
      * split; [intros _; split; [exact Hpi | reflexivity] | reflexivity].
    + apply Rltb_false in Hpi. split; [lia|]. split.
      * split; [intros _; split; [exact Hpi | reflexivity] | reflexivity].
      * split; [lia | intros [_ Habs]; discriminate Habs].
Qed.

(** X2 at the open hand: both variants store OPEN. *)
Lemma X2_witness :
  (exists s1, Lines.predict initialHand [openHand] = Some s1 /\ gesture s1 = 2%Z)
  /\ (exists s2, Scatter.predict initialHand [openHand] = Some s2 /\ gesture s2 = 2%Z).
Proof.
  destruct (X2_detected_hand_table initialHand openHand [] eq_refl)
    as [[s1 [H1 [_ T1]]] [s2 [H2 [_ [T2 _]]]]].
  assert (Hp : 0.05 <= pinchDist (lmk openHand 4) (lmk openHand 8)).
  { change (lmk openHand 4) with (landmark 1 0 0).
    change (lmk openHand 8) with (landmark 0 0 0).
    unfold pinchDist, Math.hypot; cbn [lx ly].
    replace ((1 - 0) * (1 - 0) + (0 - 0) * (0 - 0)) with 1 by ring.
    rewrite sqrt_1. lra. }
  assert (Hf : Lines.isFist (lmk openHand 0) (lmk openHand 12) (lmk openHand 9)
                 (lmk openHand 16) (lmk openHand 13) = false
               /\ Scatter.isFist (lmk openHand 0) (lmk openHand 12) (lmk openHand 9) = false).
  { change (lmk openHand 0) with (landmark 0 0 0).
    change (lmk openHand 12) with (landmark 0 2 0).
    change (lmk openHand 9) with (landmark 0 1 0).
    unfold Lines.isFist, Scatter.isFist, distToWrist; cbn [lx ly].
    rewrite hypot_0_2, hypot_0_1.
    rewrite !(Rltb_ge 2) by lra. split; reflexivity. }
  split.
  - exists s1. split; [exact H1|]. apply T1. split; [exact Hp | exact (proj1 Hf)].
  - exists s2. split; [exact H2|]. apply T2. split; [exact Hp | exact (proj2 Hf)].
Defined.

(* ------------------------------------------------------------------ *)
(** ** Tracking: bounds and convergence *)

Lemma classifier_lost (predict : HandState -> list (list Landmark) -> option HandState) :
  In predict classifiers -> forall s, predict s [] = Some (lost s).
Proof. intros [<- | [<- | []]]; reflexivity. Qed.

Lemma classifier_track (predict : HandState -> list (list Landmark) -> option HandState) :
  In predict classifiers ->
  forall s lm rest, length lm = 21%nat ->
  exists g, predict s (lm :: rest) = Some (track s (lmk lm 9) g).
Proof.
  intros [<- | [<- | []]] s lm rest H.
  - apply Lines_predict_track. exact H.
  - apply Scatter_predict_track. exact H.
Qed.

Section Bounds.

Variable predict : HandState -> list (list Landmark) -> option HandState.

Hypothesis Hin : In predict classifiers.

Lemma predict_bounded (s : HandState) (landmarks : list (list Landmark)) :
  boundedHand s -> targetInUnitSquare landmarks ->
  exists s', predict s landmarks = Some s' /\ boundedHand s'.
Proof.
  intros [[Hpx Hpy] [Hvx Hvy]] Ht. destruct landmarks as [|lm rest].
  - exists (lost s). split; [apply classifier_lost; exact Hin|].
    unfold boundedHand, inUnitSquare, inUnitBox; cbn [lost prevHandPos handVel vx vy].
    repeat split; lra.
  - destruct Ht as [H21 [Htx Hty]].
    destruct (classifier_track predict Hin s lm rest H21) as [g Hg].
    exists (track s (lmk lm 9) g). split; [exact Hg|].
    unfold boundedHand, inUnitSquare, inUnitBox; cbn [track prevHandPos handVel vx vy].
    repeat split; lra.
Qed.

Lemma cycles_bounded (inputs : list (list (list Landmark))) :
  forall s, boundedHand s -> Forall targetInUnitSquare inputs ->
  exists s', cycles predict s inputs = Some s' /\ boundedHand s'.
Proof.
  induction inputs as [|landmarks rest IH]; intros s Hs Hall.
  - exists s. split; [reflexivity | exact Hs].
  - inversion Hall as [|? ? Hhd Htl]; subst.
    destruct (predict_bounded s landmarks Hs Hhd) as [s1 [Hp Hs1]].
    destruct (IH s1 Hs1 Htl) as [s2 [Hc Hs2]].
    exists s2. split; [|exact Hs2]. cbn [cycles]. rewrite Hp. exact Hc.
Qed.

(** [n] cycles that all see the same hand [lm]. *)
Lemma steady_cycles (lm : list Landmark) (n : nat) :
  length lm = 21%nat ->
  forall s, exists s',
    cycles predict s (repeat [lm] n) = Some s'
    /\ vx (handPos s') - vx (rawTarget lm) = 0.7 ^ n * (vx (handPos s) - vx (rawTarget lm))
    /\ vy (handPos s') - vy (rawTarget lm) = 0.7 ^ n * (vy (handPos s) - vy (rawTarget lm))
    /\ (prevHandPos s = rawTarget lm ->
        prevHandPos s' = rawTarget lm
        /\ vx (handVel s') = 0.8 ^ n * vx (handVel s)
        /\ vy (handVel s') = 0.8 ^ n * vy (handVel s)).
Proof.
  intros H21. induction n as [|n IH]; intros s.
  - exists s. cbn. repeat split; try lra. assumption.
  - destruct (classifier_track predict Hin s lm [] H21) as [g Hg].
    destruct (IH (track s (lmk lm 9) g)) as [s' [Hc [Hx [Hy Hv]]]].
    exists s'. cbn [repeat cycles]. rewrite Hg. cbn [bind].
    split; [exact Hc|].
    cbn [track handPos prevHandPos handVel vx vy rawTarget] in *.
    split; [rewrite Hx; cbn [pow]; lra|].
    split; [rewrite Hy; cbn [pow]; lra|].
    intros Hprev. destruct (Hv eq_refl) as [Hp' [Hvx Hvy]].
    split; [exact Hp'|].
    rewrite Hprev in Hvx, Hvy. unfold rawTarget in Hvx, Hvy. cbn [vx vy] in Hvx, Hvy.
    split; [rewrite Hvx | rewrite Hvy]; cbn [pow]; ring.
Qed.

End Bounds.

(** X3.  Over any run of cycles whose raw targets lie in the unit square,
    from the initial state, both components of the smoothed velocity stay in
    [-1, 1] and the stored previous target stays in the unit square (both
    variants). *)
Theorem X3_velocity_bounded (inputs : list (list (list Landmark))) :
  Forall targetInUnitSquare inputs ->
  forall predict, In predict classifiers ->
  exists s, cycles predict initialHand inputs = Some s
            /\ inUnitBox (handVel s) /\ inUnitSquare (prevHandPos s).
Proof.
  intros Hall predict Hin.
  assert (H0 : boundedHand initialHand).
  { unfold boundedHand, inUnitSquare, inUnitBox; cbn. repeat split; lra. }
  destruct (cycles_bounded predict Hin inputs initialHand H0 Hall) as [s [Hc [Hp Hv]]].
  exists s. repeat split; try exact Hc; (apply Hp || apply Hv).
Qed.

(** X3 on a session of an open hand followed by a lost cycle. *)
Lemma X3_witness :
  exists s, cycles Scatter.predict initialHand [[openHand]; []] = Some s
            /\ inUnitBox (handVel s).
Proof.
  destruct (X3_velocity_bounded [[openHand]; []]) with (predict := Scatter.predict)
    as [s [Hc [Hv _]]].
  - constructor; [|constructor; [exact I | constructor]].
    split; [reflexivity|].
    change (lmk openHand 9) with (landmark 0 1 0). cbn [lx ly]. lra.
  - right; left; reflexivity.
  - exists s. split; assumption.
Defined.

(** X4.  While the pose service keeps returning the same hand, the smoothed
    position approaches the raw target geometrically: after [n] cycles its
    offset from the target is [0.7 ^ n] times the offset it started with
    (both variants). *)
Theorem X4_position_converges (s : HandState) (lm : list Landmark) (n : nat) :
  length lm = 21%nat ->
  forall predict, In predict classifiers ->
  exists s',
    cycles predict s (repeat [lm] n) = Some s'
    /\ vx (handPos s') - vx (rawTarget lm) = 0.7 ^ n * (vx (handPos s) - vx (rawTarget lm))
    /\ vy (handPos s') - vy (rawTarget lm) = 0.7 ^ n * (vy (handPos s) - vy (rawTarget lm)).
Proof.
  intros H21 predict Hin.
  destruct (steady_cycles predict Hin lm n H21 s) as [s' [Hc [Hx [Hy _]]]].
  exists s'. repeat split; assumption.
Qed.

(** X4 after two cycles on the open hand from the initial position. *)
Lemma X4_witness :
  exists s', cycles Lines.predict initialHand (repeat [openHand] 2) = Some s'
             /\ vx (handPos s') = 1 - 0.49 * 0.5.
Proof.
  destruct (X4_position_converges initialHand openHand 2 eq_refl Lines.predict)
    as [s' [Hc [Hx _]]]; [left; reflexivity|].
  exists s'. split; [exact Hc|].
  unfold rawTarget in Hx. change (lmk openHand 9) with (landmark 0 1 0) in Hx.
  cbn [vx lx initialHand handPos] in Hx. lra.
Defined.

(** X5.  While the hand does not move (each raw target equals the previous
    one), the smoothed velocity decays by the factor 0.8 per cycle: after
    [n] cycles it is [0.8 ^ n] times what it was (both variants). *)
Theorem X5_velocity_settles (s : HandState) (lm : list Landmark) (n : nat) :
  length lm = 21%nat -> prevHandPos s = rawTarget lm ->
  forall predict, In predict classifiers ->
  exists s',
    cycles predict s (repeat [lm] n) = Some s'
    /\ vx (handVel s') = 0.8 ^ n * vx (handVel s)
    /\ vy (handVel s') = 0.8 ^ n * vy (handVel s).
Proof.
  intros H21 Hprev predict Hin.
  destruct (steady_cycles predict Hin lm n H21 s) as [s' [Hc [_ [_ Hv]]]].
  destruct (Hv Hprev) as [_ [Hvx Hvy]].
  exists s'. repeat split; assumption.
Qed.

(** X5 after three cycles on the open hand that has stopped moving. *)
Lemma X5_witness :
  exists s', cycles Lines.predict haltedHand (repeat [openHand] 3) = Some s'
             /\ vy (handVel s') = 0.512.
Proof.
  destruct (X5_velocity_settles haltedHand openHand 3 eq_refl) with (predict := Lines.predict)
    as [s' [Hc [_ Hy]]].
  - unfold rawTarget. change (lmk openHand 9) with (landmark 0 1 0).
    cbn [lx ly haltedHand prevHandPos]. f_equal; lra.
  - left; reflexivity.
  - exists s'. split; [exact Hc|]. rewrite Hy. cbn [haltedHand handVel vy]. lra.
Defined.

(* ------------------------------------------------------------------ *)
(** ** The mesh buffers *)

Lemma range_In (n i : Z) : In i (range n) <-> (0 <= i < n)%Z.
Proof.
  unfold range. rewrite in_map_iff. split.
  - intros [k [<- Hk]]. apply in_seq in Hk. lia.
  - intros Hi. exists (Z.to_nat i). split; [lia|]. apply in_seq. lia.
Qed.

Lemma range_snoc (n : Z) : (1 <= n)%Z -> range n = range (n - 1) ++ [(n - 1)%Z].
Proof.
  intros Hn. unfold range.
  replace (Z.to_nat n) with (S (Z.to_nat (n - 1))) by lia.
  rewrite seq_S, map_app. cbn [map Nat.add]. rewrite Z2Nat.id by lia. reflexivity.
Qed.

Lemma nth_map_range {B : Type} (f : Z -> B) (n j : Z) (d : B) :
  (0 <= j < n)%Z -> nth (Z.to_nat j) (map f (range n)) d = f j.
Proof.
  intros Hj. rewrite (nth_indep _ d (f 0%Z)) by (rewrite length_map, range_length; lia).
  rewrite (map_nth f). rewrite range_nth by lia. rewrite Z2Nat.id by lia. reflexivity.
Qed.

Lemma grid_covers_count (count w h : Z) :
  (1 <= count)%Z -> (0 < w)%Z -> (0 < h)%Z ->
  let m := initWebGL count w h in
  (1 <= rows m)%Z /\ (1 <= cols m)%Z
  /\ (count <= rows m * cols m < count + rows m)%Z.
Proof.
  intros Hc Hw Hh m.
  destruct (grid_rows_cols count w h) as [Hrows Hcols]. fold m in Hrows, Hcols.
  assert (Ha : 0 < IZR w / IZR h).
  { apply Rdiv_lt_0_compat; apply IZR_lt; assumption. }
  assert (HcR : 1 <= IZR count) by (apply IZR_le in Hc; exact Hc).
  assert (Hx : 0 < IZR count / (IZR w / IZR h)) by (apply Rdiv_lt_0_compat; lra).
  assert (Hs : 0 < sqrt (IZR count / (IZR w / IZR h))) by (apply sqrt_lt_R0; exact Hx).
  assert (H1r : (1 <= rows m)%Z) by (rewrite Hrows; apply ceil_ge; lra).
  assert (HrR : 1 <= IZR (rows m)) by (apply IZR_le in H1r; exact H1r).
  destruct (ceil_spec (IZR count / IZR (rows m))) as [Hlo Hhi].
  rewrite <- Hcols in Hlo, Hhi.
  assert (Hq : IZR count / IZR (rows m) * IZR (rows m) = IZR count) by (field; lra).
  assert (Hq0 : 0 < IZR count / IZR (rows m)) by (apply Rdiv_lt_0_compat; lra).
  assert (H1c : (1 <= cols m)%Z).
  { assert (H0c : (0 < cols m)%Z) by (apply lt_IZR; lra). lia. }
  split; [exact H1r|]. split; [exact H1c|]. split.
  - apply le_IZR. rewrite mult_IZR. nra.
  - apply lt_IZR. rewrite plus_IZR, mult_IZR. nra.
Qed.

(** X6.  For a target count of at least 1 on a canvas of positive size the
    grid has at least one row and one column and never undershoots the
    target: [count <= rows * cols < count + rows]. *)
Theorem X6_grid_covers_count (count w h : Z) :
  (1 <= count)%Z -> (0 < w)%Z -> (0 < h)%Z ->
  let m := initWebGL count w h in
  (1 <= rows m)%Z /\ (1 <= cols m)%Z
  /\ (count <= rows m * cols m < count + rows m)%Z.
Proof. apply grid_covers_count. Qed.

(** X6 at the default configuration. *)
Lemma X6_witness :
  (15000 <= rows (initWebGL 15000 300 150) * cols (initWebGL 15000 300 150))%Z.
Proof.
  destruct (X6_grid_covers_count 15000 300 150) as [_ [_ [H _]]]; [lia | lia | lia |].
  exact H.
Defined.

(** X7.  The loops fill both typed arrays completely, [2 * rows * cols] UV
    entries and [rows * cols] ids, and vertex number [p] carries the id [p]
    and the UV of column [p / rows], row [p mod rows]: ids run down a column
    first. *)
Theorem X7_vertex_of_id (count w h p : Z) :
  let m := initWebGL count w h in
  length (uvData m) = (2 * (Z.to_nat (cols m) * Z.to_nat (rows m)))%nat
  /\ length (indexData m) = (Z.to_nat (cols m) * Z.to_nat (rows m))%nat
  /\ ((0 <= p < rows m * cols m)%Z ->
      nth (Z.to_nat p) (indexData m) 0 = IZR p
      /\ uvAt m (Z.to_nat p)
         = vec2 (IZR (p / rows m) / (IZR (cols m) - 1))
                (IZR (p mod rows m) / (IZR (rows m) - 1))).
Proof.
  intros m. set (R := rows m). set (C := cols m).
  split; [|split].
  - change (uvData m) with
      (flat_map (fun i => flat_map (fun j => [IZR i / (IZR C - 1); IZR j / (IZR R - 1)])
                                   (range R)) (range C)).
    rewrite (flat_map_constant_length (c := (2 * Z.to_nat R)%nat)).
    + rewrite range_length. lia.
    + intros i _. rewrite (flat_map_constant_length (c := 2%nat)) by reflexivity.
      rewrite range_length. lia.
  - change (indexData m) with
      (flat_map (fun i => map (fun j => IZR (i * R + j)) (range R)) (range C)).
    rewrite (flat_map_constant_length (c := Z.to_nat R)).
    + rewrite range_length. reflexivity.
    + intros i _. rewrite length_map, range_length. reflexivity.
  - intros Hp.
    assert (HR0 : (0 <= R)%Z).
    { change (0 <= Math.ceil (sqrt (IZR count / (IZR w / IZR h))))%Z. apply ceil_ge.
      pose proof (sqrt_pos (IZR count / (IZR w / IZR h))). lra. }
    assert (HR : (0 < R)%Z).
    { destruct (Z.eq_dec R 0) as [E | E]; [rewrite E in Hp; lia | lia]. }
    assert (Hj : (0 <= p mod R < R)%Z) by (apply Z.mod_pos_bound; exact HR).
    assert (Hi0 : (0 <= p / R)%Z) by (apply Z.div_pos; lia).
    assert (Hdm : p = (R * (p / R) + p mod R)%Z) by (apply Z.div_mod; lia).
    assert (Hi : (p / R < C)%Z) by nia.
    split.
    + change (indexData m) with
        (flat_map (fun i => map (fun j => IZR (i * R + j)) (range R)) (range C)).
      replace (Z.to_nat p)
        with (Z.to_nat (p / R) * Z.to_nat R + Z.to_nat (p mod R))%nat by nia.
      rewrite (nth_flat_map_block _ (Z.to_nat R) 0 0%Z)
        by (try rewrite range_length; try (intros; rewrite length_map, range_length);
            try reflexivity; lia).
      rewrite range_nth by lia. rewrite Z2Nat.id by lia.
      rewrite nth_map_range by lia. f_equal. lia.
    + replace (Z.to_nat p) with (vertexId m (p / R) (p mod R))
        by (unfold vertexId; fold R; f_equal; lia).
      apply (uvAt_grid count w h (p / R) (p mod R)); fold m; fold R; fold C; lia.
Qed.

(** X7 at vertex 1 of the default grid. *)
Lemma X7_witness :
  nth 1 (indexData (initWebGL 15000 300 150)) 0 = 1.
Proof.
  destruct (grid_covers_count 15000 300 150) as [Hr [Hc Hn]]; [lia | lia | lia |].
  destruct (X7_vertex_of_id 15000 300 150 1) as [_ [_ H]].
  destruct H as [H _]; [lia|]. exact H.
Defined.

(** X8.  When the grid has at least two rows and two columns every entry of
    [uvData] lies in [0, 1]. *)
Theorem X8_uv_in_unit_range (count w h : Z) :
  let m := initWebGL count w h in
  (2 <= rows m)%Z -> (2 <= cols m)%Z ->
  Forall inUnit (uvData m).
Proof.
  intros m Hr Hc. set (R := rows m) in *. set (C := cols m) in *.
  change (uvData m) with
    (flat_map (fun i => flat_map (fun j => [IZR i / (IZR C - 1); IZR j / (IZR R - 1)])
                                 (range R)) (range C)).
  assert (HrR : 2 <= IZR R) by (apply IZR_le in Hr; exact Hr).
  assert (HcR : 2 <= IZR C) by (apply IZR_le in Hc; exact Hc).
  assert (Hfrac : forall k n : Z, (0 <= k < n)%Z -> 2 <= IZR n ->
                                  inUnit (IZR k / (IZR n - 1))).
  { intros k n [Hk0 Hkn] Hn.
    assert (Hk0R : 0 <= IZR k) by (apply IZR_le in Hk0; exact Hk0).
    assert (HknR : IZR k <= IZR n - 1).
    { rewrite <- minus_IZR. apply IZR_le. lia. }
    unfold inUnit. split.
    - apply div_ge; lra.
    - apply div_le; lra. }
  apply Forall_flat_map. apply Forall_forall. intros i Hi. apply range_In in Hi.
  apply Forall_flat_map. apply Forall_forall. intros j Hj. apply range_In in Hj.
  apply Forall_cons; [apply Hfrac; assumption|].
  apply Forall_cons; [apply Hfrac; assumption | apply Forall_nil].
Qed.

(** X8 at the default configuration. *)
Lemma X8_witness : Forall inUnit (uvData (initWebGL 15000 300 150)).
Proof.
  assert (Ha : 0 < IZR 300 / IZR 150) by lra.
  assert (Hin : aspectInRange 15000 (IZR 300 / IZR 150)).
  { unfold aspectInRange. split; lra. }
  destruct (proj2 (grid_nondegenerate_iff 15000 300 150 ltac:(lia) Ha) Hin) as [Hr Hc].
  apply (X8_uv_in_unit_range 15000 300 150); assumption.
Defined.

(* ------------------------------------------------------------------ *)
(** ** The line index buffer of the LINES variant *)

(** X9.  Every element of [lineIndices] is the id of a vertex of the mesh:
    [drawElements] never reads past the vertex buffers, whatever the grid
    size. *)
Theorem X9_line_indices_in_range (count w h : Z) :
  let m := initWebGL count w h in
  Forall (fun k => (0 <= k < rows m * cols m)%Z) (lineIndices m).
Proof.
  intros m. set (R := rows m). set (C := cols m).
  change (lineIndices m) with
    (flat_map (fun i =>
       flat_map (fun j =>
                   (if (i <? C - 1)%Z then [(i * R + j)%Z; (i * R + j + R)%Z] else [])
                   ++ (if (j <? R - 1)%Z then [(i * R + j)%Z; (i * R + j + 1)%Z] else []))
                (range R)) (range C)).
  apply Forall_flat_map. apply Forall_forall. intros i Hi. apply range_In in Hi.
  apply Forall_flat_map. apply Forall_forall. intros j Hj. apply range_In in Hj.
  apply Forall_app. split.
  - destruct (Z.ltb_spec i (C - 1)); repeat constructor; nia.
  - destruct (Z.ltb_spec j (R - 1)); repeat constructor; nia.
Qed.

Lemma lines_of_column (R C i : Z) :
  (1 <= R)%Z ->
  length (flat_map (fun j =>
            (if (i <? C - 1)%Z then [(i * R + j)%Z; (i * R + j + R)%Z] else [])
            ++ (if (j <? R - 1)%Z then [(i * R + j)%Z; (i * R + j + 1)%Z] else []))
            (range R))
  = ((if (i <? C - 1)%Z then 2 * Z.to_nat R else 0) + 2 * Z.to_nat (R - 1))%nat.
Proof.
  intros HR. rewrite (range_snoc R HR), flat_map_app, length_app.
  rewrite (flat_map_constant_length (c := ((if (i <? C - 1)%Z then 2 else 0) + 2)%nat)).
  - rewrite range_length. cbn [flat_map]. rewrite app_nil_r, length_app.
    rewrite Z.ltb_irrefl. cbn [length].
    destruct (i <? C - 1)%Z; cbn [length]; lia.
  - intros j Hj. apply range_In in Hj. rewrite length_app.
    rewrite (proj2 (Z.ltb_lt j (R - 1))) by lia.
    destruct (i <? C - 1)%Z; reflexivity.
Qed.

(** X10.  A grid of at least one row and one column has
    [(cols - 1) * rows] segments to right neighbours and [cols * (rows - 1)]
    segments to lower neighbours: [lineIndices], whose length is the
    [numLines] passed to [drawElements], holds two ids per segment. *)
Theorem X10_line_count (count w h : Z) :
  let m := initWebGL count w h in
  (1 <= rows m)%Z -> (1 <= cols m)%Z ->
  Z.of_nat (length (lineIndices m))
  = (2 * ((cols m - 1) * rows m + cols m * (rows m - 1)))%Z.
Proof.
  intros m HR HC. set (R := rows m) in *. set (C := cols m) in *.
  change (lineIndices m) with
    (flat_map (fun i =>
       flat_map (fun j =>
                   (if (i <? C - 1)%Z then [(i * R + j)%Z; (i * R + j + R)%Z] else [])
                   ++ (if (j <? R - 1)%Z then [(i * R + j)%Z; (i * R + j + 1)%Z] else []))
                (range R)) (range C)).
  rewrite (range_snoc C HC), flat_map_app, length_app.
  rewrite (flat_map_constant_length (c := (2 * Z.to_nat R + 2 * Z.to_nat (R - 1))%nat)).
  - rewrite range_length. cbn [flat_map]. rewrite app_nil_r.
    rewrite (lines_of_column R C (C - 1) HR). rewrite Z.ltb_irrefl. nia.
  - intros i Hi. apply range_In in Hi.
    rewrite (lines_of_column R C i HR).
    rewrite (proj2 (Z.ltb_lt i (C - 1))) by lia. reflexivity.
Qed.

(** X10 at the default configuration. *)
Lemma X10_witness :
  Z.of_nat (length (lineIndices (initWebGL 15000 300 150)))
  = (2 * ((cols (initWebGL 15000 300 150) - 1) * rows (initWebGL 15000 300 150)
          + cols (initWebGL 15000 300 150) * (rows (initWebGL 15000 300 150) - 1)))%Z.
Proof.
  destruct (grid_covers_count 15000 300 150) as [Hr [Hc _]]; [lia | lia | lia |].
  apply (X10_line_count 15000 300 150); assumption.
Defined.

(* ------------------------------------------------------------------ *)
(** ** The vertex stage: where the warps act and how far *)

Lemma clamp_range (v lo hi : R) : lo <= hi -> lo <= GLSL.clamp v lo hi <= hi.
Proof.
  intros H. unfold GLSL.clamp, Rmin, Rmax.
  destruct (Rle_dec v lo); destruct (Rle_dec _ hi); lra.
Qed.

Lemma smoothstep_range (e0 e1 v : R) : 0 <= GLSL.smoothstep e0 e1 v <= 1.
Proof.
  unfold GLSL.smoothstep.
  pose proof (clamp_range ((v - e0) / (e1 - e0)) 0 1 ltac:(lra)) as Ht.
  set (t := GLSL.clamp _ 0 1) in *.
  assert (H1 : 0 <= t * t) by (apply Rmult_le_pos; lra).
  assert (H2 : 0 <= t * t * (3 - 2 * t)) by (apply Rmult_le_pos; lra).
  assert (H3 : 0 <= (1 - t) * (1 - t) * (1 + 2 * t)).
  { apply Rmult_le_pos; [apply Rmult_le_pos|]; lra. }
  split; [exact H2|].
  replace (t * t * (3 - 2 * t)) with (1 - (1 - t) * (1 - t) * (1 + 2 * t)) by ring.
  lra.
Qed.

Lemma dist_nonneg (U : Uniforms) (a_uv : Vec2) : 0 <= dist U a_uv.
Proof. unfold dist. apply distance2_nonneg. Qed.

Lemma scaled_wave_bound (s k a : R) :
  -1 <= s <= 1 -> 0 <= k <= 1 -> 0 <= a -> - a <= 0 + s * k * a <= a.
Proof.
  intros Hs Hk Ha.
  assert (H1 : 0 <= (1 - s) * k) by (apply Rmult_le_pos; lra).
  assert (H2 : 0 <= (1 + s) * k) by (apply Rmult_le_pos; lra).
  assert (H3 : 0 <= (1 - s * k) * a) by (apply Rmult_le_pos; lra).
  assert (H4 : 0 <= (1 + s * k) * a) by (apply Rmult_le_pos; lra).
  split; lra.
Qed.

(** X11.  The warps are local: whatever the gesture value, a vertex at
    distance 0.65 or more from the hand (LINES), or 0.5 or more (SCATTER),
    is emitted at its base position with depth 0 and its base colour. *)
Theorem X11_warp_is_local (U : Uniforms) (pSize : R) (a_uv : Vec2) (a_index : R) :
  (0.65 <= dist U a_uv ->
     Lines.vertex_main U a_uv a_index = restingVertex 1.5 U a_uv a_index)
  /\ (0.5 <= dist U a_uv ->
     fst (Scatter.vertex_main U pSize a_uv a_index) = restingVertex 1.2 U a_uv a_index).
Proof.
  split; intros Hd.
  - unfold Lines.vertex_main, restingVertex.
    rewrite (Rltb_ge (dist U a_uv) 0.65), (Rltb_ge (dist U a_uv) 0.25),
      (Rltb_ge (dist U a_uv) 0.3) by lra.
    destruct (Rltb 1.5 (u_gesture U)), (Rltb (u_gesture U) 2.5),
      (Rltb 0.1 (x4 (u_mask U (texCoord a_uv)))), (Rltb 0.5 (u_gesture U)),
      (Rltb (u_gesture U) 1.5), (Rltb 3.5 (u_gesture U)); reflexivity.
  - unfold Scatter.vertex_main, restingVertex.
    rewrite (Rltb_ge (dist U a_uv) 0.5), (Rltb_ge (dist U a_uv) 0.2),
      (Rltb_ge (dist U a_uv) 0.4) by lra.
    destruct (Rltb 1.5 (u_gesture U)), (Rltb (u_gesture U) 2.5),
      (Rltb 0.1 (x4 (u_mask U (texCoord a_uv)))), (Rltb 0.5 (u_gesture U)),
      (Rltb (u_gesture U) 1.5), (Rltb 3.5 (u_gesture U)); reflexivity.
Qed.

Lemma dist_open_farVertex : dist openUniforms farVertex = 1.
Proof.
  unfold dist, basePos, handPos2D, GLSL.distance2, openUniforms, farVertex; cbn.
  match goal with |- sqrt ?a = _ => replace a with 1 by lra end.
  apply sqrt_1.
Qed.

(** X11 at a vertex at distance 1 from an open hand. *)
Lemma X11_witness :
  Lines.vertex_main openUniforms farVertex 0 = restingVertex 1.5 openUniforms farVertex 0.
Proof.
  apply (proj1 (X11_warp_is_local openUniforms 4 farVertex 0)).
  rewrite dist_open_farVertex. lra.
Defined.

(** X12.  The pull-and-wave gesture only grabs revealed material: with the
    OPEN code in LINES, or the PINCH code in SCATTER, a vertex whose mask
    sample is at most 0.1 is emitted at rest however near the hand is, and
    in SCATTER its point size is the plain [u_pointSize]. *)
Theorem X12_unrevealed_not_pulled (U : Uniforms) (pSize : R) (a_uv : Vec2) (a_index : R) :
  x4 (u_mask U (texCoord a_uv)) <= 0.1 ->
  (u_gesture U = 2 ->
     Lines.vertex_main U a_uv a_index = restingVertex 1.5 U a_uv a_index)
  /\ (u_gesture U = 4 ->
     Scatter.vertex_main U pSize a_uv a_index
     = (restingVertex 1.2 U a_uv a_index, pSize)).
Proof.
  intros Hm. split; intros Hg.
  - unfold Lines.vertex_main, restingVertex. rewrite Hg.
    rewrite (Rltb_ge 0.1 _ Hm).
    rewrite (Rltb_ge 2 1.5), (Rltb_ge 3.5 2) by lra.
    rewrite !andb_false_r. reflexivity.
  - unfold Scatter.vertex_main, restingVertex. rewrite Hg.
    rewrite (Rltb_ge 0.1 _ Hm), (Rltb_ge 0.5 (x4 _)) by lra.
    rewrite (Rltb_ge 4 1.5), (Rltb_ge 4 2.5) by lra.
    rewrite !andb_false_r. reflexivity.
Qed.

(** X12 at the centre vertex under an open hand over an unrevealed mask. *)
Lemma X12_witness :
  Lines.vertex_main openUniforms (vec2 0.5 0.5) 0
  = restingVertex 1.5 openUniforms (vec2 0.5 0.5) 0.
Proof.
  apply (X12_unrevealed_not_pulled openUniforms 4 (vec2 0.5 0.5) 0).
  - cbn. lra.
  - reflexivity.
Defined.

(** X13.  The depth a vertex is emitted with is bounded for every input:
    between -1.2 and 1.2 in LINES and between -2 and 2 in SCATTER. *)
Theorem X13_depth_bounded (U : Uniforms) (pSize : R) (a_uv : Vec2) (a_index : R) :
  -1.2 <= v_depth (Lines.vertex_main U a_uv a_index) <= 1.2
  /\ -2 <= v_depth (fst (Scatter.vertex_main U pSize a_uv a_index)) <= 2.
Proof.
  pose proof (dist_nonneg U a_uv) as Hd0.
  split.
  - unfold Lines.vertex_main.
    destruct (Rltb 1.5 (u_gesture U) && Rltb (u_gesture U) 2.5
              && Rltb 0.1 (x4 (u_mask U (texCoord a_uv))))%bool.
    + destruct (Rltb (dist U a_uv) 0.65); cbn [v_depth z3 basePos]; [|lra].
      pose proof (scaled_wave_bound (sin (dist U a_uv * 12 - u_time U * 6))
                    (GLSL.smoothstep 0.65 0 (dist U a_uv)) 1.2
                    (SIN_bound _) (smoothstep_range _ _ _) ltac:(lra)). lra.
    + destruct (Rltb 0.5 (u_gesture U) && Rltb (u_gesture U) 1.5)%bool.
      * destruct (Rltb (dist U a_uv) 0.25) eqn:Hd; cbn [v_depth z3 basePos]; [|lra].
        apply Rltb_true in Hd. lra.
      * destruct (Rltb 3.5 (u_gesture U)); cbn [v_depth z3 basePos]; [|lra].
        destruct (Rltb (dist U a_uv) 0.3) eqn:Hd; cbn [v_depth z3 basePos]; [|lra].
        apply Rltb_true in Hd.
        assert (Hk : 0 <= (0.3 - dist U a_uv) / 0.3 <= 1).
        { split; [apply div_ge; lra | apply div_le; lra]. }
        pose proof (scaled_wave_bound (sin (dist U a_uv * 60 - u_time U * 12))
                      ((0.3 - dist U a_uv) / 0.3) 0.1 (SIN_bound _) Hk ltac:(lra)). lra.
  - unfold Scatter.vertex_main. cbn [fst].
    destruct (Rltb 3.5 (u_gesture U) && Rltb 0.1 (x4 (u_mask U (texCoord a_uv))))%bool.
    + destruct (Rltb (dist U a_uv) 0.5); cbn [fst v_depth z3 basePos]; [|lra].
      pose proof (SIN_bound (vx a_uv * 150)) as Hs.
      pose proof (COS_bound (vy a_uv * 150)) as Hc.
      split; nra.
    + destruct (Rltb 0.5 (u_gesture U) && Rltb (u_gesture U) 1.5)%bool.
      * destruct (Rltb (dist U a_uv) 0.2) eqn:Hd; cbn [fst v_depth z3 basePos]; [|lra].
        apply Rltb_true in Hd. lra.
      * destruct (Rltb 1.5 (u_gesture U) && Rltb (u_gesture U) 2.5)%bool;
          cbn [fst v_depth z3 basePos]; [|lra].
        destruct (Rltb (dist U a_uv) 0.4) eqn:Hd; cbn [fst v_depth z3 basePos]; [|lra].
        apply Rltb_true in Hd.
        assert (Hk : 0 <= (0.4 - dist U a_uv) / 0.4 <= 1).
        { split; [apply div_ge; lra | apply div_le; lra]. }
        pose proof (scaled_wave_bound (sin (dist U a_uv * 40 - u_time U * 8))
                      ((0.4 - dist U a_uv) / 0.4) 0.15 (SIN_bound _) Hk ltac:(lra)). lra.
Qed.

Lemma mod_IZR (n : Z) : GLSL.mod_ (IZR n) 29 = IZR (n mod 29).
Proof.
  unfold GLSL.mod_.
  assert (Hdm : n = (29 * (n / 29) + n mod 29)%Z) by (apply Z.div_mod; lia).
  assert (Hm : (0 <= n mod 29 < 29)%Z) by (apply Z.mod_pos_bound; lia).
  assert (HnR : IZR n = 29 * IZR (n / 29) + IZR (n mod 29)).
  { rewrite Hdm at 1. rewrite plus_IZR, mult_IZR. reflexivity. }
  assert (Hm0 : 0 <= IZR (n mod 29)) by (apply IZR_le; lia).
  assert (Hm1 : IZR (n mod 29) <= 28) by (apply IZR_le; lia).
  rewrite <- (Int_part_spec (IZR n / 29) (n / 29)).
  - lra.
  - split.
    + apply Rmult_lt_reg_r with 29; [lra|].
      replace ((IZR n / 29 - 1) * 29) with (IZR n - 29) by (field; lra). lra.
    + apply div_ge; lra.
Qed.

(** X14.  The highlighted vertices are exactly those whose id is a multiple
    of 29: for an integer id [n], [v_isQuantum] is 1 when [n mod 29 = 0] and
    0 otherwise. *)
Theorem X14_quantum_every_29th (n : Z) :
  isQuantum (IZR n) = if (n mod 29 =? 0)%Z then 1 else 0.
Proof.
  unfold isQuantum. rewrite mod_IZR.
  assert (Hm : (0 <= n mod 29 < 29)%Z) by (apply Z.mod_pos_bound; lia).
  destruct (Z.eqb_spec (n mod 29) 0) as [E | E].
  - rewrite E. rewrite Rltb_lt by lra. reflexivity.
  - rewrite Rltb_ge; [reflexivity|].
    apply (IZR_le 1). lia.
Qed.

(** X15.  The SCATTER point size is never below 2 pixels: [u_pointSize] is
    [max(2, displayWidth / 200)] and the vertex stage only ever enlarges it,
    by a factor of at most 1.5. *)
Theorem X15_point_size_bounds (U : Uniforms) (f : Frame) (a_uv : Vec2) (a_index : R) :
  let ps := snd (Scatter.vertex_main U (pointSize f) a_uv a_index) in
  2 <= pointSize f /\ pointSize f <= ps <= 1.5 * pointSize f.
Proof.
  intros ps.
  assert (H2 : 2 <= pointSize f) by (unfold pointSize, Math.max; apply Rmax_l).
  split; [exact H2|].
  subst ps. unfold Scatter.vertex_main.
  repeat match goal with
         | |- context [if ?b then _ else _] => destruct b
         end; cbn [snd]; lra.
Qed.

(* ------------------------------------------------------------------ *)
(** ** The fragment stage *)

(** X16.  In LINES every fragment has alpha between 0.1 and 0.8; a vertex
    at rest is drawn with alpha 0.6, and a vertex pressed by a fist at
    distance [d < 0.25] with alpha [0.6 - 0.48 * (0.25 - d)], so pressing
    makes the mesh fainter and the clamp never cuts the press. *)
Theorem X16_lines_alpha (U : Uniforms) (a_uv : Vec2) (a_index : R) :
  let d := dist U a_uv in
  0.1 <= w4 (linesFragmentAt U a_uv a_index) <= 0.8
  /\ (Lines.vertex_main U a_uv a_index = restingVertex 1.5 U a_uv a_index ->
      w4 (linesFragmentAt U a_uv a_index) = 0.6)
  /\ (u_gesture U = 1 -> d < 0.25 ->
      w4 (linesFragmentAt U a_uv a_index) = 0.6 - 0.48 * (0.25 - d)).
Proof.
  intros d. unfold linesFragmentAt, LinesFragment.fragment_main. cbn [w4].
  split; [apply clamp_range; lra|]. split.
  - intros ->. cbn [restingVertex v_depth]. rewrite clamp_inside; lra.
  - intros Hg Hd. pose proof (dist_nonneg U a_uv) as Hd0. fold d in Hd0.
    unfold Lines.vertex_main. fold d. rewrite Hg.
    rewrite (Rltb_ge 1.5 1), (Rltb_lt 0.5 1), (Rltb_lt 1 1.5) by lra.
    rewrite (Rltb_lt _ _ Hd). cbn [andb v_depth z3 basePos].
    rewrite clamp_inside; lra.
Qed.

(** X16 at the centre vertex pressed by a fist at the centre. *)
Lemma X16_witness :
  w4 (linesFragmentAt pressUniforms (vec2 0.5 0.5) 0) = 0.48.
Proof.
  destruct (X16_lines_alpha pressUniforms (vec2 0.5 0.5) 0) as [_ [_ H]].
  rewrite H; [| reflexivity | rewrite dist_pressUniforms; lra].
  rewrite dist_pressUniforms. lra.
Defined.

(** X17.  In SCATTER a fragment is discarded exactly when it lies farther
    than 0.5 from the centre of its point sprite; a fragment that is kept
    has alpha between 0 and 1, and on a highlighted point at least 0.2. *)
Theorem X17_scatter_fragment (u_brightness : R) (gl_PointCoord : Vec2)
    (v_color : Vec3) (v_depth v_isQuantum : R) :
  let r := length2 (GLSL.sub2 gl_PointCoord (vec2 0.5 0.5)) in
  let frag := ScatterFragment.fragment_main u_brightness gl_PointCoord
                v_color v_depth v_isQuantum in
  (frag = None <-> 0.5 < r)
  /\ (forall c, frag = Some c ->
        0 <= w4 c <= 1 /\ (0.5 < v_isQuantum -> 0.2 <= w4 c)).
Proof.
  intros r frag. subst frag. unfold ScatterFragment.fragment_main. fold r.
  pose proof (clamp_range (1 + v_depth * 0.5) 0.2 1 ltac:(lra)) as Hk.
  pose proof (smoothstep_range 0.3 0.5 r) as Hs.
  destruct (Rltb 0.5 r) eqn:Hr.
  - apply Rltb_true in Hr. split; [split; [intros _; exact Hr | reflexivity]|].
    intros c Habs. discriminate Habs.
  - apply Rltb_false in Hr. split; [split; [intros Habs | intros Habs; lra]|].
    + destruct (Rltb 0.5 v_isQuantum); discriminate Habs.
    + intros c Hc. destruct (Rltb 0.5 v_isQuantum) eqn:Hq.
      * injection Hc as <-. cbn [w4]. split; [lra | intros _; lra].
      * apply Rltb_false in Hq. injection Hc as <-. cbn [w4].
        split; [split; nra | intros Habs; lra].
Qed.

(** X17 at the centre of a point sprite: the fragment is kept. *)
Lemma X17_witness :
  exists c, ScatterFragment.fragment_main 1 (vec2 0.5 0.5) (vec3 1 1 1) 0 0 = Some c
            /\ 0 <= w4 c <= 1.
Proof.
  destruct (X17_scatter_fragment 1 (vec2 0.5 0.5) (vec3 1 1 1) 0 0) as [Hd Hk].
  destruct (ScatterFragment.fragment_main 1 (vec2 0.5 0.5) (vec3 1 1 1) 0 0) as [c|] eqn:E.
  - exists c. split; [reflexivity|]. apply (Hk c eq_refl).
  - exfalso. pose proof (proj1 Hd eq_refl) as Hr.
    unfold length2, GLSL.sub2 in Hr; cbn [vx vy] in Hr.
    replace ((0.5 - 0.5) * (0.5 - 0.5) + (0.5 - 0.5) * (0.5 - 0.5)) with 0 in Hr by ring.
    rewrite sqrt_0 in Hr. lra.
Defined.

(* ------------------------------------------------------------------ *)
(** ** The reveal mask: size, sampling, saturation *)

Lemma resizeMask_size (m : Canvas) (w h : Z) :
  width (resizeMask m w h) = w /\ height (resizeMask m w h) = h.
Proof.
  unfold resizeMask.
  destruct (Z.eqb_spec (width m) w), (Z.eqb_spec (height m) h);
    cbn [negb orb]; split; (reflexivity || assumption).
Qed.

(** X18.  After every frame the mask has exactly the client size of the
    display, and the [u_resolution] uploaded with it is that size. *)
Theorem X18_mask_tracks_display (config : SimulationConfig) (startTime : R)
    (h : HandState) (m : Canvas) (f : Frame) :
  let m' := fst (render config startTime h m f) in
  let U := snd (render config startTime h m f) in
  width m' = clientWidth f /\ height m' = clientHeight f
  /\ u_resolution U = vec2 (IZR (width m')) (IZR (height m')).
Proof.
  intros m' U. subst m' U. cbn [render fst snd uniforms u_resolution].
  unfold renderMask.
  destruct (paintMask_size h (resizeMask m (clientWidth f) (clientHeight f))
              (clientWidth f) (clientHeight f)) as [Hw Hh].
  destruct (resizeMask_size m (clientWidth f) (clientHeight f)) as [Hw' Hh'].
  rewrite Hw, Hh, Hw', Hh'. repeat split.
Qed.

Lemma Int_part_frac (x : R) : 0 <= x - IZR (Int_part x) <= 1.
Proof. destruct (base_Int_part x) as [H1 H2]. split; lra. Qed.

Lemma sampleMask_range (m : Canvas) (uv : Vec2) :
  wfMask m -> inUnit (x4 (sampleMask m uv)).
Proof.
  intros Hwf. unfold sampleMask, inUnit. cbn [x4].
  assert (Ht : forall i j, 0 <= texel m i j <= 1).
  { intros i j. unfold texel, maskValue. apply Hwf. }
  apply mix_between; [apply Int_part_frac | |];
    (apply mix_between; [apply Int_part_frac | apply Ht | apply Ht]).
Qed.

(** X19.  Whatever frames a session has rendered, the mask value the vertex
    stage samples lies in [0, 1] at every texture coordinate, so the base
    colour is always a proper blend between grayscale and colour. *)
Theorem X19_mask_sample_in_unit_range (fs : list (HandState * Frame)) (uv : Vec2) :
  inUnit (x4 (sampleMask (frames initialMask fs) uv)).
Proof. apply sampleMask_range. apply frames_wf. apply initialMask_wf. Qed.





(** X21.  A frame of the mask's own size changes nothing unless the gesture
    is FIST, and a FIST frame leaves every pixel whose centre is 80 or more
    from the brush centre exactly as it was. *)
Theorem X21_stroke_is_confined (h : HandState) (m : Canvas) (f : Frame) :
  sameSize m (h, f) ->
  (gesture h <> 1%Z -> renderMask h m f = m)
  /\ (forall i j, 80 <= brushDistance h (width m) (height m) i j ->
        pixel (renderMask h m f) i j = pixel m i j).
Proof.
  intros Hsz. rewrite (renderMask_sameSize h m f Hsz). split.
  - intros Hg. unfold paintMask.
    destruct (Z.eqb_spec (gesture h) 1); [contradiction | reflexivity].
  - intros i j Hd. unfold paintMask.
    destruct (gesture h =? 1)%Z; [|reflexivity].
    unfold Canvas2D.fillArcLighten; cbn [pixel].
    change (GLSL.distance2 (vec2 (IZR i + 0.5) (IZR j + 0.5))
              (vec2 (vx (handPos h) * IZR (width m)) ((1 - vy (handPos h)) * IZR (height m))))
      with (brushDistance h (width m) (height m) i j).
    rewrite (Rltb_ge _ _ Hd), andb_false_r. reflexivity.
Qed.

(** X21 on the initial mask under an open hand: the frame changes nothing. *)
Lemma X21_witness :
  renderMask initialHand initialMask defaultSizeFrame = initialMask.
Proof.
  apply (X21_stroke_is_confined initialHand initialMask defaultSizeFrame).
  - split; reflexivity.
  - cbn. lia.
Defined.



(* ------------------------------------------------------------------ *)
(** ** The cursor overlay *)

(** X23.  Every mark of the cursor overlay is centred on the brush centre
    and has a radius of at most 60, inside the brush's 80; the LINES overlay
    is empty exactly when the gesture is none of FIST, PINCH, OPEN, and the
    SCATTER overlay exactly when it is neither FIST nor PINCH, so an open
    hand has a cursor in LINES only. *)
Theorem X23_cursor_overlay (h : HandState) (w ht : Z) :
  Forall (cursorMark h w ht) (linesOverlay h w ht)
  /\ Forall (cursorMark h w ht) (scatterOverlay h w ht)
  /\ (linesOverlay h w ht = []
      <-> gesture h <> 1%Z /\ gesture h <> 4%Z /\ gesture h <> 2%Z)
  /\ (scatterOverlay h w ht = [] <-> gesture h <> 1%Z /\ gesture h <> 4%Z).
Proof.
  assert (Hmark : forall k, (exists r, (k = Stroke (vx (screenPos h w ht)) (vy (screenPos h w ht)) r
                                        \/ k = Fill (vx (screenPos h w ht)) (vy (screenPos h w ht)) r)
                                       /\ 0 < r <= 60) ->
                            cursorMark h w ht k).
  { intros k [r [[-> | ->] Hr]]; split; cbn; (reflexivity || lra). }
  unfold linesOverlay, scatterOverlay.
  destruct (Z.eqb_spec (gesture h) 1) as [E1 | E1];
    [|destruct (Z.eqb_spec (gesture h) 4) as [E4 | E4];
      [|destruct (Z.eqb_spec (gesture h) 2) as [E2 | E2]]].
  all: repeat split; intros;
    repeat match goal with
           | |- Forall _ (_ :: _) => apply Forall_cons
           | |- Forall _ [] => apply Forall_nil
           | |- cursorMark _ _ _ _ =>
               apply Hmark; eexists; split; [(left; reflexivity) || (right; reflexivity)|]; lra
           | H : _ :: _ = [] |- _ => discriminate H
           | H : _ /\ _ |- _ => destruct H
           end; try reflexivity; try lia.
Qed.

(** X23 without a hand: the overlay of both variants is empty. *)
Lemma X23_witness :
  linesOverlay initialHand 800 600 = [] /\ scatterOverlay initialHand 800 600 = [].
Proof.
  destruct (X23_cursor_overlay initialHand 800 600) as [_ [_ [HL HS]]].
  split; [apply HL | apply HS]; cbn; lia.
Defined.
